(** * HeadHunt: the SEO metadata scraper of [headhunt.js]

    A shallow embedding of class [SEOScraper]: the nine extractors, the
    page-weight estimate and the [analyze] pipeline, followed by the
    properties the specification states about them.

    Conventions of the embedding.
    - A JavaScript string is a [string] holding its UTF-8 bytes, so
      [Buffer.byteLength(s, 'utf8')] is its length.
    - [undefined] and [null] results are [None]; a value tested for
      truthiness is an [option string] or a [string].
    - A plain object used as a dictionary is a [gmap string _] of its own
      properties.
    - Numbers are counts and sums of small constants: [Z].
    - A function that can throw returns an [outcome]: the state it leaves
      behind, and whether it returned or threw.
    - The parsed document ([cheerio]) is a tree of nodes; the platform
      functions [JSON.parse] and [new URL(..).hostname] are parameters. *)

From Stdlib Require Import ZArith Ascii String List Bool Lia.
From stdpp Require Import base option list strings gmap.

Local Open Scope Z_scope.

(* ===================================================================== *)
(** * Strings *)
(* ===================================================================== *)

Module Js.

(** [s.startsWith(p)] *)
Fixpoint startsWith (s p : string) : bool :=
  match p, s with
  | EmptyString, _ => true
  | String _ _, EmptyString => false
  | String b p', String a s' => if Ascii.eqb a b then startsWith s' p' else false
  end.

(** [s.includes(p)]: [p] occurs at some position of [s]. *)
Fixpoint includes (s p : string) : bool :=
  if startsWith s p then true
  else match s with
       | EmptyString => false
       | String _ s' => includes s' p
       end.

Fixpoint drop (n : nat) (s : string) : string :=
  match n, s with
  | O, _ => s
  | S _, EmptyString => EmptyString
  | S n', String _ s' => drop n' s'
  end.

(** [s.replace(p, r)] for a string pattern: the first occurrence only.
    (The replacement patterns [$&], [$1], ... do not arise: the source
    only replaces by the empty string.) *)
Fixpoint replace (s p r : string) : string :=
  if startsWith s p then r +:+ drop (String.length p) s
  else match s with
       | EmptyString => EmptyString
       | String a s' => String a (replace s' p r)
       end.

(** [s.split(c)] for a one-character separator. *)
Fixpoint split (s : string) (c : ascii) : list string :=
  match s with
  | EmptyString => [EmptyString]
  | String a s' =>
      if Ascii.eqb a c then EmptyString :: split s' c
      else match split s' c with
           | [] => [String a EmptyString]
           | x :: xs => String a x :: xs
           end
  end.

(** [arr.pop()] on a fresh array: its last element. *)
Definition pop (l : list string) : option string := last l.

Definition bytes (l : list nat) : string :=
  string_of_list_ascii (map ascii_of_nat l).

(** The code points [trim] strips (WhiteSpace and LineTerminator of
    ECMAScript), each as its UTF-8 bytes. *)
Definition white_space : list string :=
  map bytes
    [ [9]; [10]; [11]; [12]; [13]; [32]; [194; 160]; [225; 154; 128];
      [226; 128; 128]; [226; 128; 129]; [226; 128; 130]; [226; 128; 131];
      [226; 128; 132]; [226; 128; 133]; [226; 128; 134]; [226; 128; 135];
      [226; 128; 136]; [226; 128; 137]; [226; 128; 138]; [226; 128; 168];
      [226; 128; 169]; [226; 128; 175]; [226; 129; 159]; [227; 128; 128];
      [239; 187; 191] ]%nat.

Fixpoint strip (fuel : nat) (ws : list string) (s : string) : string :=
  match fuel with
  | O => s
  | S fuel' =>
      match List.find (startsWith s) ws with
      | Some w => strip fuel' ws (drop (String.length w) s)
      | None => s
      end
  end.

Definition trimStart (s : string) : string :=
  strip (String.length s) white_space s.

Definition trimEnd (s : string) : string :=
  String.rev (strip (String.length s) (map String.rev white_space) (String.rev s)).

(** [s.trim()] *)
Definition trim (s : string) : string := trimEnd (trimStart s).

Definition lower (a : ascii) : ascii :=
  let n := nat_of_ascii a in
  if (Nat.leb 65 n && Nat.leb n 90)%bool then ascii_of_nat (n + 32) else a.

(** [s.toLowerCase()] on the ASCII letters.  The source only searches the
    result for [nofollow], [sponsored] and [ugc]; no other character
    lower-cases to one of their letters, so the searches agree with the
    full Unicode mapping. *)
Fixpoint toLowerCase (s : string) : string :=
  match s with
  | EmptyString => EmptyString
  | String a s' => String (lower a) (toLowerCase s')
  end.

(** [s.length]: UTF-16 code units of the string whose UTF-8 bytes are [s].
    Every byte that starts a code point counts one, and a four-byte
    sequence (a surrogate pair) one more. *)
Fixpoint utf16_length (s : string) : Z :=
  match s with
  | EmptyString => 0
  | String a s' =>
      let n := nat_of_ascii a in
      (if (Nat.leb 128 n && Nat.leb n 191)%bool then 0
       else if Nat.leb 240 n then 2 else 1) + utf16_length s'
  end.

(** Truthiness of a string or [undefined]. *)
Definition truthy (o : option string) : bool :=
  match o with
  | Some (String _ _) => true
  | _ => false
  end.

(** [o || null] *)
Definition or_null (o : option string) : option string :=
  if truthy o then o else None.

(** [o || d] *)
Definition or_else (o : option string) (d : string) : string :=
  match o with
  | Some (String a s) => String a s
  | _ => d
  end.

End Js.

(* ===================================================================== *)
(** * The parsed document *)
(* ===================================================================== *)

(** What [cheerio.load] holds: a forest of text and element nodes.  Tag and
    attribute names are as the HTML parser stores them (lower case). *)
#[warnings="-register-all"]
Inductive node : Type :=
  | Text (data : string)
  | Element (name : string) (attribs : list (string * string)) (children : list node).

Definition document : Type := list node.

Module Dom.

(** The element and every element below it, in document order. *)
Fixpoint subtree (n : node) : list node :=
  match n with
  | Text _ => []
  | Element _ _ cs => n :: flat_map subtree cs
  end.

Definition elements (d : document) : list node := flat_map subtree d.

(** Elements strictly below [n], in document order. *)
Definition descendants (n : node) : list node :=
  match n with
  | Text _ => []
  | Element _ _ cs => flat_map subtree cs
  end.

Fixpoint lookup_attr (a : string) (l : list (string * string)) : option string :=
  match l with
  | [] => None
  | (k, v) :: l' => if String.eqb k a then Some v else lookup_attr a l'
  end.

(** [$(elem).attr(a)] *)
Definition attr (a : string) (n : node) : option string :=
  match n with
  | Text _ => None
  | Element _ as_ _ => lookup_attr a as_
  end.

(** [$(elem).text()]: the text nodes below the element, concatenated. *)
Fixpoint text (n : node) : string :=
  match n with
  | Text s => s
  | Element _ _ cs => fold_right (fun c acc => text c +:+ acc) EmptyString cs
  end.

(** [$(elem).html()] of a script element, whose content the HTML parser
    keeps as raw text. *)
Definition inner_html (n : node) : string := text n.

(** Attribute tests of a selector: [[a]], [[a="v"]], [[a^="v"]]. *)
Inductive attr_test : Type :=
  | Has (a : string)
  | Is (a v : string)
  | Begins (a v : string).

(** A compound selector [tag[..][..]:not([..])]. *)
Record compound : Type := {
  sel_tag : option string;
  sel_attrs : list attr_test;
  sel_not : list attr_test
}.

(** A selector list [c1, c2, ...]. *)
Definition selector : Type := list compound.

Definition test_attr (n : node) (t : attr_test) : bool :=
  match t with
  | Has a => match attr a n with Some _ => true | None => false end
  | Is a v => match attr a n with Some w => String.eqb w v | None => false end
  | Begins a v =>
      match v, attr a n with
      | String _ _, Some w => Js.startsWith w v
      | _, _ => false
      end
  end.

Definition tag_is (n : node) (t : option string) : bool :=
  match t, n with
  | None, Element _ _ _ => true
  | Some t', Element name _ _ => String.eqb name t'
  | _, Text _ => false
  end.

Definition matches_compound (n : node) (c : compound) : bool :=
  tag_is n (sel_tag c)
  && forallb (test_attr n) (sel_attrs c)
  && negb (existsb (test_attr n) (sel_not c)).

Definition matches (s : selector) (n : node) : bool :=
  existsb (matches_compound n) s.

(** [$(selector)]: the matching elements in document order. *)
Definition select (d : document) (s : selector) : list node :=
  List.filter (matches s) (elements d).

(** [$(elem).find(selector)] *)
Definition find (n : node) (s : selector) : list node :=
  List.filter (matches s) (descendants n).

(** [$(selector).attr(a)]: the attribute of the first match. *)
Definition first_attr (l : list node) (a : string) : option string :=
  match l with
  | [] => None
  | n :: _ => attr a n
  end.

(** [$(selector).text()]: the text of all matches. *)
Definition all_text (l : list node) : string :=
  fold_right (fun n acc => text n +:+ acc) EmptyString l.

Definition tag (t : string) : selector :=
  [ {| sel_tag := Some t; sel_attrs := []; sel_not := [] |} ].
Definition tag_with (t : string) (ts : list attr_test) : selector :=
  [ {| sel_tag := Some t; sel_attrs := ts; sel_not := [] |} ].
Definition tag_without (t : string) (ts : list attr_test) : selector :=
  [ {| sel_tag := Some t; sel_attrs := []; sel_not := ts |} ].
Definition any_with (ts : list attr_test) : selector :=
  [ {| sel_tag := None; sel_attrs := ts; sel_not := [] |} ].

End Dom.

(* ===================================================================== *)
(** * Objects, errors and the report *)
(* ===================================================================== *)

(** The property names every plain object inherits from [Object.prototype]. *)
Definition Object_prototype : list string :=
  [ "constructor"; "__defineGetter__"; "__defineSetter__"; "hasOwnProperty";
    "__lookupGetter__"; "__lookupSetter__"; "isPrototypeOf";
    "propertyIsEnumerable"; "toString"; "valueOf"; "__proto__";
    "toLocaleString" ].

Definition inherited (k : string) : bool :=
  existsb (String.eqb k) Object_prototype.

(** [o[k] = v] on a plain object, for a string [v]: an own property is
    created or overwritten, except that the [__proto__] setter ignores a
    value that is not an object. *)
Definition assign {V : Type} (k : string) (v : V) (o : gmap string V) : gmap string V :=
  if String.eqb k "__proto__" then o else <[k := v]> o.

Inductive error : Type :=
  | TypeError
  | SyntaxError.

(** The result of a call that may throw, with the state it leaves behind. *)
Inductive outcome (A : Type) : Type :=
  | Returned (a : A)
  | Thrown (e : error) (a : A).
Arguments Returned {A} a.
Arguments Thrown {A} e a.

Definition state_of {A : Type} (o : outcome A) : A :=
  match o with
  | Returned a => a
  | Thrown _ a => a
  end.

Definition returns {A : Type} (o : outcome A) : bool :=
  match o with
  | Returned _ => true
  | Thrown _ _ => false
  end.

(** [$(..).each(callback)] with a callback that may throw: the loop stops
    at the first exception. *)
Fixpoint each {S : Type} (l : list node) (f : S -> node -> error + S) (s : S) : error + S :=
  match l with
  | [] => inr s
  | n :: l' =>
      match f s n with
      | inl e => inl e
      | inr s' => each l' f s'
      end
  end.

(** A value [JSON.parse] returns. *)
#[warnings="-register-all"]
Inductive json : Type :=
  | JNull
  | JBool (b : bool)
  | JNumber (lexeme : string)
  | JString (s : string)
  | JArray (items : list json)
  | JObject (members : list (string * json)).

Record basic_t : Type := {
  title : option string;
  metaDescription : option string;
  canonical : option string;
  robots : option string;
  viewport : option string;
  charset : option string;
  language : option string;
  hreflang : list (option string * option string)
}.

(** A value of the Open Graph object: a content string, or the nested
    object of a [parent:child] property. *)
Inductive og_value : Type :=
  | OgString (content : string)
  | OgObject (nested : gmap string string).

Record schema_t : Type := {
  jsonLd : list json;
  microdata : gmap string (list (gmap string string))
}.

Record technical_t : Type := {
  doctype : option string;
  htmlVersion : string;
  hasViewport : bool;
  hasCharset : bool;
  hasCanonical : bool;
  hasRobots : bool;
  hasSitemap : bool;
  hasRSS : bool;
  hasAMP : bool;
  hasMobileAlternate : bool;
  sitemapUrl : option string;
  rssUrl : option string
}.

Record link : Type := {
  link_url : string;
  link_text : option string;
  rel : option string;
  isNofollow : bool;
  isSponsored : bool;
  isUGC : bool;
  link_title : option string
}.

Record links_t : Type := {
  internal : list link;
  external : list link;
  nofollow : list link;
  broken : list link
}.

Record heading : Type := {
  h_text : string;
  h_id : option string;
  h_length : Z
}.

Record heading_counts : Type := {
  n_h1 : Z; n_h2 : Z; n_h3 : Z; n_h4 : Z; n_h5 : Z; n_h6 : Z
}.

Record headings_t : Type := {
  h1 : list heading; h2 : list heading; h3 : list heading;
  h4 : list heading; h5 : list heading; h6 : list heading;
  h_counts : heading_counts
}.

Record image : Type := {
  src : string;
  alt : option string;
  hasAlt : bool;
  isLazy : bool;
  srcset : option string;
  img_title : option string
}.

Record image_counts : Type := {
  total : Z;
  n_withAlt : Z;
  n_withoutAlt : Z;
  n_lazyLoaded : Z
}.

Record images_t : Type := {
  withAlt : list image;
  withoutAlt : list image;
  lazyLoaded : list image;
  counts : image_counts
}.

Record page_weight : Type := {
  w_html : Z;
  estimatedExternalResources : Z;
  totalEstimated : Z
}.

Record performance_t : Type := {
  totalImages : Z;
  totalScripts : Z;
  totalStylesheets : Z;
  totalInlineScripts : Z;
  totalInlineStyles : Z;
  totalLinks : Z;
  totalHeadings : Z;
  htmlSize : Z;
  estimatedPageWeight : page_weight
}.

(** A section of the report, one shape per category. *)
Inductive section : Type :=
  | Basic (b : basic_t)
  | OpenGraph (o : gmap string og_value)
  | Twitter (t : gmap string string)
  | Schema (s : schema_t)
  | Technical (t : technical_t)
  | Links (l : links_t)
  | Headings (h : headings_t)
  | Images (i : images_t)
  | Performance (p : performance_t).

(** [SEO_CATEGORIES] *)
Module SEO_CATEGORIES.
Definition BASIC : string := "basic".
Definition OPEN_GRAPH : string := "open_graph".
Definition TWITTER : string := "twitter".
Definition SCHEMA : string := "schema".
Definition TECHNICAL : string := "technical".
Definition LINKS : string := "links".
Definition HEADINGS : string := "headings".
Definition IMAGES : string := "images".
Definition PERFORMANCE : string := "performance".
Definition all : list string :=
  [BASIC; OPEN_GRAPH; TWITTER; SCHEMA; TECHNICAL; LINKS; HEADINGS; IMAGES; PERFORMANCE].
End SEO_CATEGORIES.

(** [this.metadata] *)
Record metadata_t : Type := {
  meta_url : string;
  timestamp : string;
  seo : gmap string section
}.

(** An [SEOScraper] object.  [dollar] is [this.$]: [null] until the page
    has been fetched. *)
Record scraper : Type := {
  url : string;
  html : string;
  dollar : option document;
  metadata : metadata_t
}.

(** [new SEOScraper(url)], at clock reading [now]. *)
Definition new_SEOScraper (u now : string) : scraper :=
  {| url := u; html := EmptyString; dollar := None;
     metadata := {| meta_url := u; timestamp := now; seo := ∅ |} |}.

(** The object after a successful [fetchPage]: [page] is the response body
    and [d] what [cheerio.load] makes of it. *)
Definition fetched (this : scraper) (page : string) (d : document) : scraper :=
  {| url := url this; html := page; dollar := Some d; metadata := metadata this |}.

(** [this.metadata.seo[category] = payload] *)
Definition set_seo (this : scraper) (category : string) (payload : section) : scraper :=
  {| url := url this; html := html this; dollar := dollar this;
     metadata := {| meta_url := meta_url (metadata this);
                    timestamp := timestamp (metadata this);
                    seo := <[category := payload]> (seo (metadata this)) |} |}.

(** A method body that starts by calling [this.$]: before the page is
    fetched the call throws. *)
Definition with_dollar (this : scraper) (body : document -> outcome scraper) : outcome scraper :=
  match dollar this with
  | Some d => body d
  | None => Thrown TypeError this
  end.

(* ===================================================================== *)
(** * The extractors *)
(* ===================================================================== *)

Import Dom.

Definition len {A : Type} (l : list A) : Z := Z.of_nat (List.length l).

(** ** [extractBasicMetadata] *)

Definition hreflang_links (d : document) : list (option string * option string) :=
  map (fun elem => (attr "hreflang" elem, attr "href" elem))
      (select d (tag_with "link" [Is "rel" "alternate"; Has "hreflang"])).

Definition basic_of (d : document) : basic_t :=
  {| title := Js.or_null (Some (all_text (select d (tag "title"))));
     metaDescription :=
       Js.or_null (first_attr (select d (tag_with "meta" [Is "name" "description"])) "content");
     canonical :=
       Js.or_null (first_attr (select d (tag_with "link" [Is "rel" "canonical"])) "href");
     robots :=
       Js.or_null (first_attr (select d (tag_with "meta" [Is "name" "robots"])) "content");
     viewport :=
       Js.or_null (first_attr (select d (tag_with "meta" [Is "name" "viewport"])) "content");
     charset :=
       (let c := first_attr (select d (tag_with "meta" [Has "charset"])) "charset" in
        if Js.truthy c then c
        else Js.or_null
               (first_attr (select d (tag_with "meta" [Is "http-equiv" "Content-Type"])) "content"));
     language := Js.or_null (first_attr (select d (tag "html")) "lang");
     hreflang := hreflang_links d |}.

Definition extractBasicMetadata (this : scraper) : outcome scraper :=
  with_dollar this (fun d =>
    Returned (set_seo this SEO_CATEGORIES.BASIC (Basic (basic_of d)))).

(** ** [extractOpenGraphMetadata] *)

(** The callback of the loop over [meta[property^="og:"]].  The class body
    is strict code, so [ogTags[parent][child] = content] throws a
    [TypeError] when [ogTags[parent]] is a string (unless [child] is
    [__proto__], whose setter accepts the call and does nothing).  When the
    parent is not an own property but a name inherited from
    [Object.prototype], the assignment goes to that built-in object, which
    the embedding does not follow, and [ogTags] keeps its properties. *)
Definition og_callback (ogTags : gmap string og_value) (elem : node)
  : error + gmap string og_value :=
  match attr "property" elem with
  | None => inl TypeError
  | Some p =>
      let property := Js.replace p "og:" "" in
      let content := attr "content" elem in
      if Js.truthy (Some property) && Js.truthy content then
        let content := Js.or_else content "" in
        if Js.includes property ":" then
          let parts := Js.split property ":" in
          let parent := nth 0 parts "undefined" in
          let child := nth 1 parts "undefined" in
          match ogTags !! parent with
          | None =>
              if inherited parent then inr ogTags
              else inr (<[parent := OgObject (assign child content ∅)]> ogTags)
          | Some (OgObject o) =>
              inr (<[parent := OgObject (assign child content o)]> ogTags)
          | Some (OgString _) =>
              if String.eqb child "__proto__" then inr ogTags else inl TypeError
          end
        else inr (assign property (OgString content) ogTags)
      else inr ogTags
  end.

Definition og_metas (d : document) : list node :=
  select d (tag_with "meta" [Begins "property" "og:"]).

(** The loop over the Open Graph tags, from the empty [ogTags]. *)
Definition ogTags_of (d : document) : error + gmap string og_value :=
  each (og_metas d) og_callback ∅.

Definition extractOpenGraphMetadata (this : scraper) : outcome scraper :=
  with_dollar this (fun d =>
    match ogTags_of d with
    | inl e => Thrown e this
    | inr ogTags => Returned (set_seo this SEO_CATEGORIES.OPEN_GRAPH (OpenGraph ogTags))
    end).

(** ** [extractTwitterMetadata] *)

Definition twitter_callback (twitterTags : gmap string string) (elem : node)
  : error + gmap string string :=
  match attr "name" elem with
  | None => inl TypeError
  | Some n =>
      let name := Js.replace n "twitter:" "" in
      let content := attr "content" elem in
      if Js.truthy (Some name) && Js.truthy content
      then inr (assign name (Js.or_else content "") twitterTags)
      else inr twitterTags
  end.

Definition twitterTags_of (d : document) : error + gmap string string :=
  each (select d (tag_with "meta" [Begins "name" "twitter:"])) twitter_callback ∅.

Definition extractTwitterMetadata (this : scraper) : outcome scraper :=
  with_dollar this (fun d =>
    match twitterTags_of d with
    | inl e => Thrown e this
    | inr twitterTags => Returned (set_seo this SEO_CATEGORIES.TWITTER (Twitter twitterTags))
    end).

(** ** [extractTechnicalMetadata] and [getHtmlVersion] *)

Fixpoint startsWith_ci (s p : string) : bool :=
  match p, s with
  | EmptyString, _ => true
  | String _ _, EmptyString => false
  | String b p', String a s' =>
      if Ascii.eqb (Js.lower a) (Js.lower b) then startsWith_ci s' p' else false
  end.

(** [[^>]*>] at the start of [s]. *)
Fixpoint upto_gt (s : string) : option string :=
  match s with
  | EmptyString => None
  | String a s' =>
      if Ascii.eqb a ">" then Some (String a EmptyString)
      else option_map (String a) (upto_gt s')
  end.

Fixpoint take (n : nat) (s : string) : string :=
  match n, s with
  | S n', String a s' => String a (take n' s')
  | _, _ => EmptyString
  end.

Definition doctype_at (s : string) : option string :=
  if startsWith_ci s "<!DOCTYPE"
  then option_map (String.append (take 9 s)) (upto_gt (Js.drop 9 s))
  else None.

(** [html.match(/<!DOCTYPE[^>]*>/i)?.[0]]: the leftmost match. *)
Fixpoint match_doctype (s : string) : option string :=
  match doctype_at s with
  | Some m => Some m
  | None =>
      match s with
      | EmptyString => None
      | String _ s' => match_doctype s'
      end
  end.

Definition getHtmlVersion (this : scraper) : string :=
  let doctype := Js.or_else (match_doctype (html this)) "" in
  if Js.includes doctype "HTML 4" then "HTML4"
  else if Js.includes doctype "XHTML" then "XHTML"
  else if Js.includes doctype "HTML5" || String.eqb doctype "<!DOCTYPE html>" then "HTML5"
  else "Unknown".

Definition nonempty {A : Type} (l : list A) : bool :=
  match l with
  | [] => false
  | _ :: _ => true
  end.

Definition technical_of (this : scraper) (d : document) : technical_t :=
  {| doctype := Js.or_null (match_doctype (html this));
     htmlVersion := getHtmlVersion this;
     hasViewport := nonempty (select d (tag_with "meta" [Is "name" "viewport"]));
     hasCharset :=
       nonempty (select d (tag_with "meta" [Has "charset"]))
       || nonempty (select d (tag_with "meta" [Is "http-equiv" "Content-Type"]));
     hasCanonical := nonempty (select d (tag_with "link" [Is "rel" "canonical"]));
     hasRobots := nonempty (select d (tag_with "meta" [Is "name" "robots"]));
     hasSitemap := nonempty (select d (tag_with "link" [Is "rel" "sitemap"]));
     hasRSS := nonempty (select d (tag_with "link" [Is "type" "application/rss+xml"]));
     hasAMP := nonempty (select d (tag_with "link" [Is "rel" "amphtml"]));
     hasMobileAlternate :=
       nonempty (select d (tag_with "link" [Is "rel" "alternate"; Has "media"]));
     sitemapUrl :=
       Js.or_null (first_attr (select d (tag_with "link" [Is "rel" "sitemap"])) "href");
     rssUrl :=
       Js.or_null
         (first_attr (select d (tag_with "link" [Is "type" "application/rss+xml"])) "href") |}.

Definition extractTechnicalMetadata (this : scraper) : outcome scraper :=
  with_dollar this (fun d =>
    Returned (set_seo this SEO_CATEGORIES.TECHNICAL (Technical (technical_of this d)))).

Section Platform.

(** [JSON.parse]: [None] when it throws a [SyntaxError]. *)
Variable JSON_parse : string -> option json.

(** [new URL(s).hostname]: [None] when the constructor throws. *)
Variable URL_hostname : string -> option string.

(** ** [extractSchemaMetadata] *)

(** The callback of the loop over the JSON-LD script blocks, with its
    [try]/[catch]. *)
Definition jsonLd_callback (jsonLd : list json) (elem : node) : list json :=
  let jsonContent := inner_html elem in
  if Js.truthy (Some jsonContent) then
    match JSON_parse jsonContent with
    | Some parsed => jsonLd ++ [parsed]
    | None => jsonLd
    end
  else jsonLd.

Definition ld_scripts (d : document) : list node :=
  select d (tag_with "script" [Is "type" "application/ld+json"]).

Definition extract_jsonLd (d : document) : list json :=
  fold_left jsonLd_callback (ld_scripts d) [].

Definition itemprop_callback (item : gmap string string) (prop : node) : gmap string string :=
  let propName := default "undefined" (attr "itemprop" prop) in
  let content :=
    if Js.truthy (attr "content" prop) then Js.or_else (attr "content" prop) ""
    else Dom.text prop in
  assign propName content item.

(** The callback of the loop over [[itemscope]].  A type named like a
    member of [Object.prototype] finds that member instead of an array, and
    the call of its [push] throws. *)
Definition microdata_callback (microdata : gmap string (list (gmap string string)))
    (elem : node) : error + gmap string (list (gmap string string)) :=
  let itemtype := attr "itemtype" elem in
  if Js.truthy itemtype then
    let type := default "" (Js.pop (Js.split (Js.or_else itemtype "") "/")) in
    let item := fold_left itemprop_callback (Dom.find elem (any_with [Has "itemprop"])) ∅ in
    match microdata !! type with
    | Some items => inr (<[type := items ++ [item]]> microdata)
    | None =>
        if inherited type then inl TypeError
        else inr (<[type := [item]]> microdata)
    end
  else inr microdata.

Definition microdata_of (d : document) : error + gmap string (list (gmap string string)) :=
  each (select d (any_with [Has "itemscope"])) microdata_callback ∅.

Definition extractSchemaMetadata (this : scraper) : outcome scraper :=
  with_dollar this (fun d =>
    let jsonLd := extract_jsonLd d in
    match microdata_of d with
    | inl e => Thrown e this
    | inr microdata =>
        Returned (set_seo this SEO_CATEGORIES.SCHEMA
                    (Schema {| jsonLd := jsonLd; microdata := microdata |}))
    end).

(** ** [extractLinks] *)

Definition empty_links : links_t :=
  {| internal := []; external := []; nofollow := []; broken := [] |}.

Definition push_internal (links : links_t) (l : link) : links_t :=
  {| internal := internal links ++ [l]; external := external links;
     nofollow := nofollow links; broken := broken links |}.

Definition push_external (links : links_t) (l : link) : links_t :=
  {| internal := internal links; external := external links ++ [l];
     nofollow := nofollow links; broken := broken links |}.

Definition push_nofollow (links : links_t) (l : link) : links_t :=
  {| internal := internal links; external := external links;
     nofollow := nofollow links ++ [l]; broken := broken links |}.

(** The link record the callback builds for an anchor with href [href]. *)
Definition link_of (elem : node) (href : string) : link :=
  let rel := Js.or_else (attr "rel" elem) "" in
  let text := Js.trim (Dom.text elem) in
  {| link_url := href;
     link_text := Js.or_null (Some text);
     rel := Js.or_null (Some rel);
     isNofollow := Js.includes (Js.toLowerCase rel) "nofollow";
     isSponsored := Js.includes (Js.toLowerCase rel) "sponsored";
     isUGC := Js.includes (Js.toLowerCase rel) "ugc";
     link_title := Js.or_null (attr "title" elem) |}.

(** The [try] block that compares host names: an exception of either
    [URL] constructor lands in the [catch], which files the link as
    external. *)
Definition same_host (href base : string) : bool :=
  match URL_hostname href, URL_hostname base with
  | Some h, Some b => String.eqb h b
  | _, _ => false
  end.

(** The callback of the loop over [a[href]]. *)
Definition link_callback (base : string) (links : links_t) (elem : node) : links_t :=
  let href := attr "href" elem in
  if negb (Js.truthy href) then links
  else
    let href := Js.or_else href "" in
    let link := link_of elem href in
    if Js.startsWith href "#" || Js.startsWith href "javascript:" then links
    else
      let links :=
        if Js.startsWith href "http" then
          if same_host href base then push_internal links link
          else push_external links link
        else push_internal links link in
      if isNofollow link then push_nofollow links link else links.

(** [Array.from(new Set(xs))]: the distinct values, each at the place of
    its first occurrence. *)
Definition Set_from (xs : list string) : list string :=
  fold_left (fun seen x => if existsb (String.eqb x) seen then seen else seen ++ [x]) xs [].

(** [uniqueLinks]: for each distinct url, the first record that has it. *)
Definition uniqueLinks (arr : list link) : list link :=
  flat_map
    (fun u => option_list (List.find (fun l => String.eqb (link_url l) u) arr))
    (Set_from (map link_url arr)).

Definition anchors (d : document) : list node :=
  select d (tag_with "a" [Has "href"]).

(** The buckets as the loop leaves them, before duplicates are removed. *)
Definition collect_links (base : string) (d : document) : links_t :=
  fold_left (link_callback base) (anchors d) empty_links.

Definition links_of (base : string) (d : document) : links_t :=
  let links := collect_links base d in
  {| internal := uniqueLinks (internal links);
     external := uniqueLinks (external links);
     nofollow := uniqueLinks (nofollow links);
     broken := broken links |}.

Definition extractLinks (this : scraper) : outcome scraper :=
  with_dollar this (fun d =>
    Returned (set_seo this SEO_CATEGORIES.LINKS (Links (links_of (url this) d)))).

End Platform.

(** ** [extractHeadings] *)

Definition heading_callback (hs : list heading) (elem : node) : list heading :=
  let text := Js.trim (Dom.text elem) in
  let id := Js.or_null (attr "id" elem) in
  if Js.truthy (Some text)
  then hs ++ [ {| h_text := text; h_id := id; h_length := Js.utf16_length text |} ]
  else hs.

(** One round of the loop over the six levels. *)
Definition collect_headings (d : document) (t : string) : list heading :=
  fold_left heading_callback (select d (tag t)) [].

Definition headings_of (d : document) : headings_t :=
  let l1 := collect_headings d "h1" in
  let l2 := collect_headings d "h2" in
  let l3 := collect_headings d "h3" in
  let l4 := collect_headings d "h4" in
  let l5 := collect_headings d "h5" in
  let l6 := collect_headings d "h6" in
  {| h1 := l1; h2 := l2; h3 := l3; h4 := l4; h5 := l5; h6 := l6;
     h_counts := {| n_h1 := len l1; n_h2 := len l2; n_h3 := len l3;
                    n_h4 := len l4; n_h5 := len l5; n_h6 := len l6 |} |}.

Definition extractHeadings (this : scraper) : outcome scraper :=
  with_dollar this (fun d =>
    Returned (set_seo this SEO_CATEGORIES.HEADINGS (Headings (headings_of d)))).

(** ** [extractImages] *)

Definition empty_images : images_t :=
  {| withAlt := []; withoutAlt := []; lazyLoaded := [];
     counts := {| total := 0; n_withAlt := 0; n_withoutAlt := 0; n_lazyLoaded := 0 |} |}.

Definition image_of (elem : node) (s : string) : image :=
  let a := Js.or_else (attr "alt" elem) "" in
  {| src := s;
     alt := Js.or_null (Some a);
     hasAlt := Js.truthy (Some a);
     isLazy := match attr "loading" elem with
               | Some l => String.eqb l "lazy"
               | None => false
               end;
     srcset := Js.or_null (attr "srcset" elem);
     img_title := Js.or_null (attr "title" elem) |}.

(** The callback of the loop over [img]. *)
Definition image_callback (images : images_t) (elem : node) : images_t :=
  let s := attr "src" elem in
  if negb (Js.truthy s) then images
  else
    let image := image_of elem (Js.or_else s "") in
    let c := counts images in
    let c1 := {| total := total c + 1; n_withAlt := n_withAlt c;
                 n_withoutAlt := n_withoutAlt c; n_lazyLoaded := n_lazyLoaded c |} in
    let images1 :=
      if hasAlt image then
        {| withAlt := withAlt images ++ [image]; withoutAlt := withoutAlt images;
           lazyLoaded := lazyLoaded images;
           counts := {| total := total c1; n_withAlt := n_withAlt c1 + 1;
                        n_withoutAlt := n_withoutAlt c1; n_lazyLoaded := n_lazyLoaded c1 |} |}
      else
        {| withAlt := withAlt images; withoutAlt := withoutAlt images ++ [image];
           lazyLoaded := lazyLoaded images;
           counts := {| total := total c1; n_withAlt := n_withAlt c1;
                        n_withoutAlt := n_withoutAlt c1 + 1; n_lazyLoaded := n_lazyLoaded c1 |} |} in
    if isLazy image then
      {| withAlt := withAlt images1; withoutAlt := withoutAlt images1;
         lazyLoaded := lazyLoaded images1 ++ [image];
         counts := {| total := total (counts images1); n_withAlt := n_withAlt (counts images1);
                      n_withoutAlt := n_withoutAlt (counts images1);
                      n_lazyLoaded := n_lazyLoaded (counts images1) + 1 |} |}
    else images1.

Definition images_of (d : document) : images_t :=
  fold_left image_callback (select d (tag "img")) empty_images.

Definition extractImages (this : scraper) : outcome scraper :=
  with_dollar this (fun d =>
    Returned (set_seo this SEO_CATEGORIES.IMAGES (Images (images_of d)))).

(** ** [extractPerformanceMetrics] and [estimatePageWeight] *)

(** [Buffer.byteLength(s, 'utf8')] *)
Definition byteLength (s : string) : Z := Z.of_nat (String.length s).

(** A loop whose callback adds [k] to the running size. *)
Definition add_each (l : list node) (k : Z) (size : Z) : Z :=
  fold_left (fun acc _ => acc + k) l size.

Definition weight_of (page : string) (d : document) : page_weight :=
  let htmlSize := byteLength page in
  let externalResourcesSize := 0 in
  let externalResourcesSize :=
    add_each (select d (tag_with "link" [Is "rel" "stylesheet"])) 15000 externalResourcesSize in
  let externalResourcesSize :=
    add_each (select d (tag_with "script" [Has "src"])) 50000 externalResourcesSize in
  let externalResourcesSize :=
    add_each (select d (tag_with "img" [Has "src"])) 100000 externalResourcesSize in
  {| w_html := htmlSize;
     estimatedExternalResources := externalResourcesSize;
     totalEstimated := htmlSize + externalResourcesSize |}.

Definition estimatePageWeight (this : scraper) : error + page_weight :=
  match dollar this with
  | Some d => inr (weight_of (html this) d)
  | None => inl TypeError
  end.

Definition all_headings : selector :=
  tag "h1" ++ tag "h2" ++ tag "h3" ++ tag "h4" ++ tag "h5" ++ tag "h6".

Definition performance_of (this : scraper) (d : document) (w : page_weight) : performance_t :=
  {| totalImages := len (select d (tag "img"));
     totalScripts := len (select d (tag_with "script" [Has "src"]));
     totalStylesheets := len (select d (tag_with "link" [Is "rel" "stylesheet"]));
     totalInlineScripts := len (select d (tag_without "script" [Has "src"]));
     totalInlineStyles := len (select d (tag "style"));
     totalLinks := len (select d (tag_with "a" [Has "href"]));
     totalHeadings := len (select d all_headings);
     htmlSize := byteLength (html this);
     estimatedPageWeight := w |}.

Definition extractPerformanceMetrics (this : scraper) : outcome scraper :=
  with_dollar this (fun d =>
    match estimatePageWeight this with
    | inl e => Thrown e this
    | inr w =>
        Returned (set_seo this SEO_CATEGORIES.PERFORMANCE
                    (Performance (performance_of this d w)))
    end).

(* ===================================================================== *)
(** * The pipeline: [analyze] *)
(* ===================================================================== *)

(** An entry of the [steps] array. *)
Record step : Type := {
  step_name : string;
  method : scraper -> outcome scraper
}.

(** What the loop prints for a step: the check mark, or the warning with
    the error caught. *)
Inductive log_line : Type :=
  | Passed (name : string)
  | Warned (name : string) (e : error).

(** One round of the loop: the [try]/[catch] around [step.method()]. *)
Definition run_step (st : scraper * list log_line) (s : step) : scraper * list log_line :=
  match method s (fst st) with
  | Returned this' => (this', snd st ++ [Passed (step_name s)])
  | Thrown e this' => (this', snd st ++ [Warned (step_name s) e])
  end.

Definition run_steps (l : list step) (this : scraper) : scraper * list log_line :=
  fold_left run_step l (this, []).

Section Pipeline.

Variable JSON_parse : string -> option json.
Variable URL_hostname : string -> option string.

Definition steps : list step :=
  [ {| step_name := "Basic Metadata"; method := extractBasicMetadata |};
    {| step_name := "Open Graph Tags"; method := extractOpenGraphMetadata |};
    {| step_name := "Twitter Cards"; method := extractTwitterMetadata |};
    {| step_name := "Schema Markup"; method := extractSchemaMetadata JSON_parse |};
    {| step_name := "Technical SEO"; method := extractTechnicalMetadata |};
    {| step_name := "Links Analysis"; method := extractLinks URL_hostname |};
    {| step_name := "Headings Structure"; method := extractHeadings |};
    {| step_name := "Images Analysis"; method := extractImages |};
    {| step_name := "Performance Metrics"; method := extractPerformanceMetrics |} ].

(** [analyze()]: the value the returned promise resolves to. *)
Definition analyze (this : scraper) : metadata_t :=
  metadata (fst (run_steps steps this)).

(** What [analyze()] writes to the console between its first and last line. *)
Definition analyze_log (this : scraper) : list log_line :=
  snd (run_steps steps this).

End Pipeline.

(* ===================================================================== *)
(** * Sample platform functions and pages *)
(* ===================================================================== *)

Module Sample.

(** A parser that accepts two JSON texts, enough for the examples. *)
Definition parse (s : string) : option json :=
  if String.eqb s "{}" then Some (JObject [])
  else if String.eqb s "[]" then Some (JArray [])
  else None.

Fixpoint upto_slash (s : string) : string :=
  match s with
  | EmptyString => EmptyString
  | String a s' => if Ascii.eqb a "/" then EmptyString else String a (upto_slash s')
  end.

(** The host of an [http://host/...] or [https://host/...] address. *)
Definition hostname (s : string) : option string :=
  let rest :=
    if Js.startsWith s "https://" then Some (Js.drop 8 s)
    else if Js.startsWith s "http://" then Some (Js.drop 7 s)
    else None in
  match rest with
  | Some r => match upto_slash r with
              | EmptyString => None
              | h => Some h
              end
  | None => None
  end.

Definition meta (property content : string) : node :=
  Element "meta" [("property", property); ("content", content)] [].

Definition page (head body : list node) : document :=
  [ Element "html" [] [ Element "head" [] head; Element "body" [] body ] ].

(** [og:image] followed by [og:image:width]. *)
Definition og_page : document :=
  page [ meta "og:image" "https://a.example/i.png"; meta "og:image:width" "400" ] [].

Definition scraper_of (page : string) (d : document) : scraper :=
  fetched (new_SEOScraper "https://a.example/" "2024-01-01T00:00:00.000Z") page d.

End Sample.

(* ===================================================================== *)
(** * Vocabulary of the properties *)
(* ===================================================================== *)

(** [p] occurs in [s]. *)
Definition Contains (s p : string) : Prop :=
  exists pre post, s = pre +:+ p +:+ post.


(** The record an image element contributes, if any. *)
Definition image_record (elem : node) : option image :=
  if Js.truthy (attr "src" elem)
  then Some (image_of elem (Js.or_else (attr "src" elem) ""))
  else None.

(** The images recorded for a document, in document order. *)
Definition recorded_images (d : document) : list image :=
  omap image_record (select d (tag "img")).


Definition line_name (l : log_line) : string :=
  match l with
  | Passed n => n
  | Warned n _ => n
  end.

(** The section an extractor assigns when its loop ends normally. *)
Definition section_or {A : Type} (mk : A -> section) (r : error + A) : error + section :=
  match r with
  | inl e => inl e
  | inr a => inr (mk a)
  end.

(** What an extractor computes from the page: its section, or the error it
    throws.  Before the page is fetched the first call of [this.$] throws. *)
Definition on_page (this : scraper) (k : document -> error + section) : error + section :=
  match dollar this with
  | Some d => k d
  | None => inl TypeError
  end.

(** An extractor seen from the pipeline: its step, the category it
    assigns, and the section (or error) it computes. *)
Record extractor : Type := {
  ex_step : step;
  ex_category : string;
  ex_section : scraper -> error + section
}.

Definition extractors (JSON_parse : string -> option json)
    (URL_hostname : string -> option string) : list extractor :=
  map (fun '(s, c, r) => {| ex_step := s; ex_category := c; ex_section := r |})
    (zip (zip (steps JSON_parse URL_hostname) SEO_CATEGORIES.all)
       [ (fun this => on_page this (fun d => inr (Basic (basic_of d))));
         (fun this => on_page this (fun d => section_or OpenGraph (ogTags_of d)));
         (fun this => on_page this (fun d => section_or Twitter (twitterTags_of d)));
         (fun this => on_page this (fun d =>
            section_or (fun m => Schema {| jsonLd := extract_jsonLd JSON_parse d;
                                           microdata := m |})
                       (microdata_of d)));
         (fun this => on_page this (fun d => inr (Technical (technical_of this d))));
         (fun this => on_page this (fun d =>
            inr (Links (links_of URL_hostname (url this) d))));
         (fun this => on_page this (fun d => inr (Headings (headings_of d))));
         (fun this => on_page this (fun d => inr (Images (images_of d))));
         (fun this => on_page this (fun d =>
            inr (Performance (performance_of this d (weight_of (html this) d))))) ]).

(** The nine categories in pipeline order, each with the section its
    extractor computes for [this], or the error it throws. *)
Definition sections_of (JSON_parse : string -> option json)
    (URL_hostname : string -> option string) (this : scraper)
  : list (string * (error + section)) :=
  map (fun x => (ex_category x, ex_section x this)) (extractors JSON_parse URL_hostname).

(** Assigning a section, or leaving the report as it was after a throw. *)
Definition put (σ : gmap string section) (cr : string * (error + section))
  : gmap string section :=
  match snd cr with
  | inr p => <[fst cr := p]> σ
  | inl _ => σ
  end.

Definition commit (this : scraper) (cr : string * (error + section)) : scraper :=
  match snd cr with
  | inr p => set_seo this (fst cr) p
  | inl _ => this
  end.

Definition line_of (name : string) (r : error + section) : log_line :=
  match r with
  | inr _ => Passed name
  | inl e => Warned name e
  end.

(** Two scraper objects on the same fetched page. *)
Definition same_page (a b : scraper) : Prop :=
  url a = url b /\ html a = html b /\ dollar a = dollar b.

(** The extractor does what the pipeline expects of it: it computes its
    section from the page alone, assigns it as its last action, and leaves
    the object untouched when it throws. *)
Definition sound (x : extractor) : Prop :=
  (forall this,
     method (ex_step x) this
     = match ex_section x this with
       | inr p => Returned (set_seo this (ex_category x) p)
       | inl e => Thrown e this
       end)
  /\ (forall a b, same_page a b -> ex_section x a = ex_section x b).


(** What the specification asks of one step of the pipeline: the line it
    prints, and the entry of its category in the final report. *)
Definition isolated (this : scraper) (report : metadata_t)
    (entry : step * string * log_line) : Prop :=
  let '(s, c, line) := entry in
  match method s this with
  | Returned this' =>
      line = Passed (step_name s)
      /\ seo report !! c = seo (metadata this') !! c
  | Thrown e _ =>
      line = Warned (step_name s) e
      /\ seo report !! c = seo (metadata this) !! c
  end.

(** The record the link loop keeps for an anchor, if any. *)
Definition link_record (elem : node) : option link :=
  let href := Js.or_else (attr "href" elem) "" in
  if Js.truthy (attr "href" elem)
     && negb (Js.startsWith href "#" || Js.startsWith href "javascript:")
  then Some (link_of elem href)
  else None.

(** The records kept for a document, in document order. *)
Definition kept_links (d : document) : list link :=
  omap link_record (anchors d).

(** Whether the loop files a kept record as internal. *)
Definition is_internal (URL_hostname : string -> option string) (base : string)
    (l : link) : bool :=
  if Js.startsWith (link_url l) "http" then same_host URL_hostname (link_url l) base
  else true.

(** The buckets after the loop has filed the records [kept] on top of
    [acc]. *)
Definition filed (URL_hostname : string -> option string) (base : string)
    (acc : links_t) (kept : list link) : links_t :=
  {| internal := internal acc ++ List.filter (is_internal URL_hostname base) kept;
     external := external acc
                 ++ List.filter (fun l => negb (is_internal URL_hostname base l)) kept;
     nofollow := nofollow acc ++ List.filter isNofollow kept;
     broken := broken acc |}.

Definition urls (l : list link) : list string := map link_url l.

(** [after] is [before] without its duplicates: one record per url, the
    first of [before] that has it, and every url of [before] still there. *)
Definition deduplicated (before after : list link) : Prop :=
  NoDup (urls after)
  /\ (forall l, l ∈ after ->
        List.find (fun x => String.eqb (link_url x) (link_url l)) before = Some l)
  /\ (forall l, l ∈ before -> link_url l ∈ urls after).

(** The buckets and counts after the image loop has recorded [recs] on
    top of [acc]. *)
Definition counted (acc : images_t) (recs : list image) : images_t :=
  {| withAlt := withAlt acc ++ List.filter hasAlt recs;
     withoutAlt := withoutAlt acc ++ List.filter (fun i => negb (hasAlt i)) recs;
     lazyLoaded := lazyLoaded acc ++ List.filter isLazy recs;
     counts :=
       {| total := total (counts acc) + len recs;
          n_withAlt := n_withAlt (counts acc) + len (List.filter hasAlt recs);
          n_withoutAlt :=
            n_withoutAlt (counts acc) + len (List.filter (fun i => negb (hasAlt i)) recs);
          n_lazyLoaded := n_lazyLoaded (counts acc) + len (List.filter isLazy recs) |} |}.


(** The value of the last entry of [l] under key [k]. *)
Fixpoint last_value {V : Type} (k : string) (l : list (string * V)) : option V :=
  match l with
  | [] => None
  | (k', v) :: l' =>
      match last_value k l' with
      | Some w => Some w
      | None => if String.eqb k' k then Some v else None
      end
  end.

Definition twitter_metas (d : document) : list node :=
  select d (tag_with "meta" [Begins "name" "twitter:"]).

(** The entry a Twitter tag adds: its name without the prefix, and its
    content, when both are non-empty. *)
Definition twitter_entry (elem : node) : option (string * string) :=
  let name := Js.replace (default "" (attr "name" elem)) "twitter:" "" in
  if Js.truthy (Some name) && Js.truthy (attr "content" elem)
  then Some (name, Js.or_else (attr "content" elem) "")
  else None.


(** An Open Graph tag the callback acts on: a flat property, or a nested
    [parent:child] one. *)
Inductive og_tag : Type :=
  | OgFlat (property content : string)
  | OgNested (parent child content : string).

(** How the callback reads an element: nothing when the property (after
    the prefix) or the content is empty. *)
Definition og_tag_of (elem : node) : option og_tag :=
  let property := Js.replace (default "" (attr "property" elem)) "og:" "" in
  if Js.truthy (Some property) && Js.truthy (attr "content" elem) then
    let content := Js.or_else (attr "content" elem) "" in
    if Js.includes property ":" then
      Some (OgNested (nth 0 (Js.split property ":") "undefined")
                     (nth 1 (Js.split property ":") "undefined") content)
    else Some (OgFlat property content)
  else None.

(** The tags of a page, in document order. *)
Definition og_tags (d : document) : list og_tag := omap og_tag_of (og_metas d).

(** What the callback does with a tag. *)
Definition og_apply (ogTags : gmap string og_value) (t : og_tag)
  : error + gmap string og_value :=
  match t with
  | OgFlat p v => inr (assign p (OgString v) ogTags)
  | OgNested p c v =>
      match ogTags !! p with
      | None =>
          if inherited p then inr ogTags
          else inr (<[p := OgObject (assign c v ∅)]> ogTags)
      | Some (OgObject o) => inr (<[p := OgObject (assign c v o)]> ogTags)
      | Some (OgString _) =>
          if String.eqb c "__proto__" then inr ogTags else inl TypeError
      end
  end.

Fixpoint og_run (tags : list og_tag) (ogTags : gmap string og_value)
  : error + gmap string og_value :=
  match tags with
  | [] => inr ogTags
  | t :: ts =>
      match og_apply ogTags t with
      | inl e => inl e
      | inr o => og_run ts o
      end
  end.


Definition is_string (ogTags : gmap string og_value) (p : string) : Prop :=
  exists v, ogTags !! p = Some (OgString v).

(** The [(property, content)] pairs of the flat tags. *)
Definition flat_entries (tags : list og_tag) : list (string * string) :=
  omap (fun t => match t with
                 | OgFlat p v => Some (p, v)
                 | OgNested _ _ _ => None
                 end) tags.

(** The [(child, content)] pairs of the nested tags under parent [p]. *)
Definition children_of (p : string) (tags : list og_tag) : list (string * string) :=
  omap (fun t => match t with
                 | OgNested q c v => if String.eqb q p then Some (c, v) else None
                 | OgFlat _ _ => None
                 end) tags.

Definition is_flat (t : og_tag) : bool :=
  match t with
  | OgFlat _ _ => true
  | OgNested _ _ _ => false
  end.

(** A nested tag whose parent is not a name plain objects inherit. *)
Definition is_plain_nested (t : og_tag) : bool :=
  match t with
  | OgFlat _ _ => false
  | OgNested p _ _ => negb (inherited p)
  end.

(** The nested object built from [(child, content)] pairs, on top of [o]. *)
Definition nest (es : list (string * string)) (o : gmap string string)
  : gmap string string :=
  fold_left (fun o e => assign (fst e) (snd e) o) es o.






(** The headings section's lists, by level. *)
Definition heading_lists (h : headings_t) : list (list heading) :=
  [h1 h; h2 h; h3 h; h4 h; h5 h; h6 h].

Definition heading_count_list (c : heading_counts) : list Z :=
  [n_h1 c; n_h2 c; n_h3 c; n_h4 c; n_h5 c; n_h6 c].

Definition sum_Z (l : list Z) : Z := fold_right Z.add 0 l.
(* ===================================================================== *)
(** * Strings *)
(* ===================================================================== *)

Lemma startsWith_spec (s p : string) :
  Js.startsWith s p = true <-> exists post, s = p +:+ post.
Proof.
  revert s. induction p as [|b p IH]; intros s; simpl.
  - split; [intros _; exists s; reflexivity | intros _; destruct s; reflexivity].
  - destruct s as [|a s]; simpl.
    + split; [discriminate | intros [post H]; discriminate].
    + destruct (Ascii.eqb_spec a b) as [->|Hne].
      * rewrite IH. split; intros [post H]; exists post.
        -- simpl. now rewrite H.
        -- simpl in H. now inversion H.
      * split; [discriminate|]. intros [post H]. simpl in H. inversion H. contradiction.
Qed.

Lemma includes_unfold (s p : string) :
  Js.includes s p =
  if Js.startsWith s p then true
  else match s with
       | EmptyString => false
       | String _ s' => Js.includes s' p
       end.
Proof. destruct s; reflexivity. Qed.

Lemma includes_spec (s p : string) :
  Js.includes s p = true <-> Contains s p.
Proof.
  induction s as [|a s IH]; rewrite includes_unfold.
  - destruct (Js.startsWith "" p) eqn:E.
    + split; [intros _|reflexivity].
      apply startsWith_spec in E as [post E]. exists "", post. exact E.
    + split; [discriminate|]. intros (pre & post & H).
      destruct pre; simpl in H; [|discriminate].
      assert (Js.startsWith "" p = true) by (apply startsWith_spec; eauto).
      congruence.
  - destruct (Js.startsWith (String a s) p) eqn:E.
    + split; [intros _|reflexivity].
      apply startsWith_spec in E as [post E]. exists "", post. exact E.
    + rewrite IH. split.
      * intros (pre & post & H). exists (String a pre), post. simpl. now rewrite H.
      * intros (pre & post & H). destruct pre as [|c pre]; simpl in H.
        -- assert (Js.startsWith (String a s) p = true) by (apply startsWith_spec; eauto).
           congruence.
        -- inversion H. exists pre, post. reflexivity.
Qed.

Lemma includes_false (s p : string) :
  Js.includes s p = false <-> ~ Contains s p.
Proof.
  rewrite <- includes_spec. destruct (Js.includes s p); split; congruence.
Qed.

(* ===================================================================== *)
(** * The page-weight estimate *)
(* ===================================================================== *)

Lemma len_app {A : Type} (l1 l2 : list A) : len (l1 ++ l2) = len l1 + len l2.
Proof. unfold len. rewrite length_app. lia. Qed.

Lemma add_each_sum (l : list node) (k size : Z) :
  add_each l k size = size + k * len l.
Proof.
  unfold add_each, len. revert size.
  induction l as [|n l IH]; intros size; simpl fold_left.
  - simpl. lia.
  - rewrite IH. simpl List.length. lia.
Qed.


(* ===================================================================== *)
(** * The pipeline *)
(* ===================================================================== *)

Lemma same_page_refl (a : scraper) : same_page a a.
Proof. repeat split. Qed.

Lemma same_page_commit (a b : scraper) (cr : string * (error + section)) :
  same_page a b -> same_page a (commit b cr).
Proof.
  unfold commit. destruct (snd cr); [trivial|].
  unfold same_page, set_seo. cbn [url html dollar]. trivial.
Qed.

Lemma seo_commit (this : scraper) (l : list (string * (error + section))) :
  seo (metadata (fold_left commit l this)) = fold_left put l (seo (metadata this)).
Proof.
  revert this. induction l as [|cr l IH]; intros this; [reflexivity|].
  cbn [fold_left]. rewrite IH. f_equal.
  unfold commit, put. destruct (snd cr); reflexivity.
Qed.

(** The loop of [analyze] over sound extractors: every step runs, commits
    its section or leaves the report alone, and prints its line. *)
Lemma fold_run_step (l : list extractor) :
  Forall sound l ->
  forall (this0 this : scraper) (log : list log_line),
    same_page this0 this ->
    fold_left run_step (map ex_step l) (this, log)
    = (fold_left commit (map (fun x => (ex_category x, ex_section x this0)) l) this,
       log ++ map (fun x => line_of (step_name (ex_step x)) (ex_section x this0)) l).
Proof.
  induction 1 as [|x l [Hrun Hpage] _ IH]; intros this0 this log Hsame.
  - cbn [map fold_left]. now rewrite app_nil_r.
  - cbn [map fold_left]. unfold run_step at 2. cbn [fst snd].
    rewrite Hrun, <- (Hpage this0 this Hsame).
    destruct (ex_section x this0) as [e|p] eqn:Hx.
    + rewrite (IH this0 this _ Hsame). unfold commit at 2. cbn [fst snd line_of].
      now rewrite <- app_assoc.
    + rewrite (IH this0 (set_seo this (ex_category x) p)).
      * unfold commit at 2. cbn [fst snd line_of]. now rewrite <- app_assoc.
      * apply (same_page_commit this0 this (ex_category x, inr p) Hsame).
Qed.

Lemma lookup_put_ne (σ : gmap string section) (c k : string) (r : error + section) :
  k <> c -> put σ (k, r) !! c = σ !! c.
Proof.
  intros Hne. unfold put. cbn [fst snd]. destruct r; [reflexivity|].
  now apply lookup_insert_ne.
Qed.

Lemma lookup_put_eq (σ : gmap string section) (c : string) (r : error + section) :
  put σ (c, r) !! c = match r with
                      | inr p => Some p
                      | inl _ => σ !! c
                      end.
Proof.
  unfold put. cbn [fst snd]. destruct r; [reflexivity|]. apply lookup_insert_eq.
Qed.

Lemma lookup_fold_put_notin (l : list (string * (error + section)))
    (σ : gmap string section) (c : string) :
  c ∉ map fst l -> fold_left put l σ !! c = σ !! c.
Proof.
  revert σ. induction l as [|[k r] l IH]; intros σ Hc; [reflexivity|].
  cbn [fold_left]. cbn [map fst] in Hc. apply not_elem_of_cons in Hc as [Hne Hc].
  rewrite (IH _ Hc). apply lookup_put_ne. congruence.
Qed.

(** With one extractor per category, the report holds under a category the
    section its extractor computed, or what it held before. *)
Lemma lookup_fold_put (l : list (string * (error + section)))
    (σ : gmap string section) (c : string) (r : error + section) :
  NoDup (map fst l) -> (c, r) ∈ l ->
  fold_left put l σ !! c = match r with
                           | inr p => Some p
                           | inl _ => σ !! c
                           end.
Proof.
  revert σ. induction l as [|[k r'] l IH]; intros σ Hnd Hin.
  - now apply elem_of_nil in Hin.
  - cbn [map fst] in Hnd. apply NoDup_cons in Hnd as [Hk Hnd].
    cbn [fold_left]. apply elem_of_cons in Hin as [Heq|Hin].
    + inversion Heq; subst k r'. rewrite (lookup_fold_put_notin _ _ _ Hk).
      apply lookup_put_eq.
    + rewrite (IH _ Hnd Hin). destruct r; [|reflexivity].
      apply lookup_put_ne. intros ->. apply Hk.
      apply (list_elem_of_fmap_2 fst) in Hin. exact Hin.
Qed.

Section PipelineFacts.

Variable JSON_parse : string -> option json.
Variable URL_hostname : string -> option string.

Lemma extractors_steps :
  map ex_step (extractors JSON_parse URL_hostname) = steps JSON_parse URL_hostname.
Proof. reflexivity. Qed.

Lemma extractors_categories :
  map ex_category (extractors JSON_parse URL_hostname) = SEO_CATEGORIES.all.
Proof. reflexivity. Qed.

Lemma categories_NoDup : NoDup SEO_CATEGORIES.all.
Proof.
  unfold SEO_CATEGORIES.all. repeat (apply NoDup_cons; split);
    [repeat (rewrite not_elem_of_cons; split; [discriminate|]); apply not_elem_of_nil .. |
     apply NoDup_nil_2].
Qed.

Ltac unfold_extractors :=
  unfold extractBasicMetadata, extractOpenGraphMetadata, extractTwitterMetadata,
    extractSchemaMetadata, extractTechnicalMetadata, extractLinks, extractHeadings,
    extractImages, extractPerformanceMetrics, estimatePageWeight, with_dollar, on_page,
    section_or.

Lemma extractors_sound : Forall sound (extractors JSON_parse URL_hostname).
Proof.
  unfold extractors, steps, SEO_CATEGORIES.all. cbn [zip zip_with map].
  repeat apply Forall_cons_2; try apply Forall_nil_2;
    (split; cbn [ex_step ex_category ex_section method];
     [ intros this; unfold_extractors; destruct (dollar this) as [d|]; [|reflexivity];
       repeat match goal with
              | |- context [match ?r with inl _ => _ | inr _ => _ end] => destruct r
              end; reflexivity
     | intros [u1 p1 o1 m1] [u2 p2 o2 m2] (Hu & Hp & Ho); cbn in Hu, Hp, Ho; subst;
       reflexivity ]).
Qed.

(** The state and the lines [analyze] ends with. *)
Lemma run_steps_eq (this : scraper) :
  run_steps (steps JSON_parse URL_hostname) this
  = (fold_left commit (sections_of JSON_parse URL_hostname this) this,
     map (fun x => line_of (step_name (ex_step x)) (ex_section x this))
         (extractors JSON_parse URL_hostname)).
Proof.
  unfold run_steps. rewrite <- extractors_steps.
  rewrite (fold_run_step _ extractors_sound this this [] (same_page_refl this)).
  reflexivity.
Qed.

Lemma analyze_seo (this : scraper) :
  seo (analyze JSON_parse URL_hostname this)
  = fold_left put (sections_of JSON_parse URL_hostname this) (seo (metadata this)).
Proof. unfold analyze. rewrite run_steps_eq. cbn [fst]. apply seo_commit. Qed.

Lemma analyze_log_eq (this : scraper) :
  analyze_log JSON_parse URL_hostname this
  = map (fun x => line_of (step_name (ex_step x)) (ex_section x this))
        (extractors JSON_parse URL_hostname).
Proof. unfold analyze_log. now rewrite run_steps_eq. Qed.

End PipelineFacts.

Lemma zip_map3 {A B C D : Type} (f : A -> B) (g : A -> C) (h : A -> D) (l : list A) :
  zip (zip (map f l) (map g l)) (map h l) = map (fun x => (f x, g x, h x)) l.
Proof. induction l as [|x l IH]; [reflexivity|]. cbn. now rewrite <- IH. Qed.

Section PipelineClaims.

Variable JSON_parse : string -> option json.
Variable URL_hostname : string -> option string.

Lemma section_in (this : scraper) (x : extractor) :
  x ∈ extractors JSON_parse URL_hostname ->
  (ex_category x, ex_section x this) ∈ sections_of JSON_parse URL_hostname this.
Proof.
  intros Hx. unfold sections_of.
  apply (list_elem_of_fmap_2 (fun x => (ex_category x, ex_section x this))) in Hx.
  exact Hx.
Qed.

Lemma sections_NoDup (this : scraper) :
  NoDup (map fst (sections_of JSON_parse URL_hostname this)).
Proof.
  unfold sections_of. rewrite map_map. cbn [fst].
  change (NoDup (map ex_category (extractors JSON_parse URL_hostname))).
  rewrite (extractors_categories JSON_parse URL_hostname). apply categories_NoDup.
Qed.

(** The entry of an extractor's category in the final report. *)
Lemma analyze_lookup (this : scraper) (x : extractor) :
  x ∈ extractors JSON_parse URL_hostname ->
  seo (analyze JSON_parse URL_hostname this) !! ex_category x
  = match ex_section x this with
    | inr p => Some p
    | inl _ => seo (metadata this) !! ex_category x
    end.
Proof.
  intros Hx. rewrite analyze_seo.
  apply lookup_fold_put; [apply sections_NoDup | now apply section_in].
Qed.

(** C3 (as the code has it).  [analyze] runs the nine steps in order and
    prints one line for each.  A step that throws gets a warning line, the
    later steps still run, and the report keeps under that step's category
    what it held before the step: nothing on a new scraper, since each
    extractor assigns its section as its last statement.  A step that
    returns gets a check mark and its section is in the report.  Nothing
    here depends on how many steps throw: the run in which all nine do is
    included. *)
Theorem analyze_isolates_failures (this : scraper) :
  map line_name (analyze_log JSON_parse URL_hostname this)
    = map step_name (steps JSON_parse URL_hostname)
  /\ Forall (isolated this (analyze JSON_parse URL_hostname this))
       (zip (zip (steps JSON_parse URL_hostname) SEO_CATEGORIES.all)
            (analyze_log JSON_parse URL_hostname this)).
Proof.
  rewrite analyze_log_eq, <- (extractors_steps JSON_parse URL_hostname),
    <- (extractors_categories JSON_parse URL_hostname).
  split.
  - rewrite !map_map. apply map_ext. intros x.
    destruct (ex_section x this); reflexivity.
  - rewrite zip_map3. apply List.Forall_map, Forall_forall. intros x Hx.
    unfold isolated.
    pose proof extractors_sound JSON_parse URL_hostname as Hs.
    rewrite Forall_forall in Hs. destruct (Hs x Hx) as [Hrun _].
    rewrite Hrun, (analyze_lookup this x Hx).
    destruct (ex_section x this) as [e|p]; cbn [line_of]; split; try reflexivity.
    unfold set_seo. cbn [metadata seo]. now rewrite lookup_insert_eq.
Qed.

End PipelineClaims.

(* ===================================================================== *)
(** * Links *)
(* ===================================================================== *)

Lemma Set_from_acc (xs seen : list string) :
  NoDup seen ->
  NoDup (fold_left (fun seen x => if existsb (String.eqb x) seen then seen else seen ++ [x])
                   xs seen)
  /\ forall x,
       x ∈ fold_left (fun seen x => if existsb (String.eqb x) seen then seen else seen ++ [x])
                     xs seen
       <-> x ∈ seen \/ x ∈ xs.
Proof.
  revert seen. induction xs as [|y xs IH]; intros seen Hnd; cbn [fold_left].
  - split; [exact Hnd|]. intros x. rewrite elem_of_nil. tauto.
  - destruct (existsb (String.eqb y) seen) eqn:E.
    + destruct (IH seen Hnd) as [H1 H2]. split; [exact H1|].
      intros x. rewrite H2, elem_of_cons.
      apply existsb_exists in E as (z & Hz & Hyz). apply String.eqb_eq in Hyz. subst z.
      apply list_elem_of_In in Hz. split; [tauto|]. intros [?|[->|?]]; tauto.
    + assert (Hy : y ∉ seen).
      { intros Hy. apply list_elem_of_In in Hy.
        assert (existsb (String.eqb y) seen = true); [|congruence].
        apply existsb_exists. exists y. split; [exact Hy|apply String.eqb_refl]. }
      destruct (IH (seen ++ [y])) as [H1 H2].
      { apply NoDup_app. repeat split; [exact Hnd| |apply NoDup_singleton].
        intros x Hx Hx'. apply list_elem_of_singleton in Hx'. congruence. }
      split; [exact H1|]. intros x.
      rewrite H2, elem_of_app, !elem_of_cons, elem_of_nil. tauto.
Qed.

Lemma Set_from_NoDup (xs : list string) : NoDup (Set_from xs).
Proof. apply Set_from_acc, NoDup_nil_2. Qed.

Lemma Set_from_elem (xs : list string) (x : string) : x ∈ Set_from xs <-> x ∈ xs.
Proof.
  unfold Set_from. destruct (Set_from_acc xs [] (NoDup_nil_2)) as [_ H].
  rewrite H, elem_of_nil. tauto.
Qed.

Lemma find_url_Some (arr : list link) (u : string) :
  u ∈ urls arr ->
  exists l, List.find (fun l => String.eqb (link_url l) u) arr = Some l /\ link_url l = u.
Proof.
  induction arr as [|a arr IH]; cbn [urls map List.find]; intros Hu.
  - now apply elem_of_nil in Hu.
  - destruct (String.eqb_spec (link_url a) u) as [Heq|Hne].
    + exists a. split; [reflexivity|exact Heq].
    + apply elem_of_cons in Hu as [Hu|Hu]; [congruence|]. now apply IH.
Qed.

Lemma urls_uniqueLinks_on (arr : list link) (us : list string) :
  (forall u, u ∈ us -> u ∈ urls arr) ->
  urls (flat_map (fun u => option_list (List.find (fun l => String.eqb (link_url l) u) arr)) us)
  = us.
Proof.
  induction us as [|u us IH]; intros Hus; [reflexivity|].
  cbn [flat_map]. unfold urls in *. rewrite map_app, IH.
  - destruct (find_url_Some arr u) as (l & -> & Hl).
    + apply Hus, elem_of_cons. now left.
    + cbn. now rewrite Hl.
  - intros v Hv. apply Hus, elem_of_cons. now right.
Qed.

(** The urls that survive [uniqueLinks], in order: the distinct urls of the
    array, each at the place of its first occurrence. *)
Lemma urls_uniqueLinks (arr : list link) :
  urls (uniqueLinks arr) = Set_from (urls arr).
Proof.
  unfold uniqueLinks. apply urls_uniqueLinks_on. intros u. apply Set_from_elem.
Qed.

Lemma uniqueLinks_deduplicated (arr : list link) : deduplicated arr (uniqueLinks arr).
Proof.
  unfold deduplicated. rewrite urls_uniqueLinks. split; [apply Set_from_NoDup|]. split.
  - intros l Hl. unfold uniqueLinks in Hl. apply list_elem_of_In, in_flat_map in Hl.
    destruct Hl as (u & _ & Hl).
    destruct (List.find (fun l0 => String.eqb (link_url l0) u) arr) as [l'|] eqn:Hf;
      cbn in Hl; [|contradiction].
    destruct Hl as [->|[]]. pose proof Hf as Hf'.
    apply find_some in Hf' as [_ Hu]. apply String.eqb_eq in Hu. now rewrite Hu.
  - intros l Hl. apply Set_from_elem. unfold urls.
    apply (list_elem_of_fmap_2 link_url) in Hl. exact Hl.
Qed.

Section LinkFacts.

Variable URL_hostname : string -> option string.
Variable base : string.

Lemma link_callback_record (links : links_t) (elem : node) :
  link_callback URL_hostname base links elem
  = match link_record elem with
    | None => links
    | Some l =>
        let links1 :=
          if is_internal URL_hostname base l then push_internal links l
          else push_external links l in
        if isNofollow l then push_nofollow links1 l else links1
    end.
Proof.
  unfold link_callback, link_record, is_internal.
  destruct (Js.truthy (attr "href" elem)); cbn [negb andb]; [|reflexivity].
  destruct (Js.startsWith (Js.or_else (attr "href" elem) "") "#"
            || Js.startsWith (Js.or_else (attr "href" elem) "") "javascript:");
    cbn [negb]; [reflexivity|].
  cbn [link_of link_url].
  destruct (Js.startsWith (Js.or_else (attr "href" elem) "") "http"); [|reflexivity].
  destruct (same_host URL_hostname (Js.or_else (attr "href" elem) "") base); reflexivity.
Qed.

Lemma fold_link_callback (l : list node) (acc : links_t) :
  fold_left (link_callback URL_hostname base) l acc
  = filed URL_hostname base acc (omap link_record l).
Proof.
  revert acc. induction l as [|elem l IH]; intros acc; cbn [fold_left omap list_omap].
  - unfold filed. cbn [List.filter]. rewrite !app_nil_r. now destruct acc.
  - rewrite IH, link_callback_record. fold (omap link_record l).
    destruct (link_record elem) as [r|]; [|reflexivity].
    unfold filed. cbn [List.filter negb].
    destruct (is_internal URL_hostname base r), (isNofollow r);
      cbn [negb push_internal push_external push_nofollow internal external nofollow broken];
      rewrite <- ?app_assoc; reflexivity.
Qed.

(** The buckets the loop leaves: the kept records, in document order, split
    by host, plus those marked nofollow; [broken] stays empty. *)
Lemma collect_links_filed (d : document) :
  collect_links URL_hostname base d
  = filed URL_hostname base empty_links (kept_links d).
Proof. apply fold_link_callback. Qed.


Lemma links_of_filed (d : document) :
  links_of URL_hostname base d
  = {| internal := uniqueLinks (List.filter (is_internal URL_hostname base) (kept_links d));
       external := uniqueLinks
                     (List.filter (fun l => negb (is_internal URL_hostname base l))
                                  (kept_links d));
       nofollow := uniqueLinks (List.filter isNofollow (kept_links d));
       broken := [] |}.
Proof. unfold links_of. rewrite collect_links_filed. reflexivity. Qed.

Lemma urls_uniqueLinks_elem (arr : list link) (u : string) :
  u ∈ urls (uniqueLinks arr) <-> u ∈ urls arr.
Proof. rewrite urls_uniqueLinks. apply Set_from_elem. Qed.

Lemma urls_filter_elem (P : link -> bool) (kept : list link) (u : string) :
  u ∈ urls (List.filter P kept) <-> exists l, l ∈ kept /\ P l = true /\ link_url l = u.
Proof.
  unfold urls. rewrite list_elem_of_In, in_map_iff. split.
  - intros (l & Hu & Hl). apply filter_In in Hl as [Hl HP].
    exists l. now rewrite list_elem_of_In.
  - intros (l & Hl & HP & Hu). exists l. split; [exact Hu|].
    apply filter_In. now rewrite <- list_elem_of_In.
Qed.

Lemma link_record_kept (d : document) (elem : node) (l : link) :
  elem ∈ anchors d -> link_record elem = Some l -> l ∈ kept_links d.
Proof.
  intros He Hl. unfold kept_links. apply list_elem_of_omap. now exists elem.
Qed.

Lemma kept_not_skipped (d : document) (l : link) :
  l ∈ kept_links d ->
  Js.startsWith (link_url l) "#" || Js.startsWith (link_url l) "javascript:" = false.
Proof.
  unfold kept_links. intros Hl. apply list_elem_of_omap in Hl as (elem & _ & Hl).
  unfold link_record in Hl.
  destruct (Js.truthy (attr "href" elem)); cbn [andb] in Hl; [|discriminate].
  destruct (Js.startsWith (Js.or_else (attr "href" elem) "") "#"
            || Js.startsWith (Js.or_else (attr "href" elem) "") "javascript:") eqn:E;
    cbn [negb] in Hl; [discriminate|].
  inversion Hl. exact E.
Qed.

Lemma is_internal_url (l1 l2 : link) :
  link_url l1 = link_url l2 ->
  is_internal URL_hostname base l1 = is_internal URL_hostname base l2.
Proof. unfold is_internal. now intros ->. Qed.

(** Where the url of a kept record ends up. *)
Lemma kept_filed (d : document) (l : link) :
  l ∈ kept_links d ->
  (if is_internal URL_hostname base l
   then link_url l ∈ urls (internal (links_of URL_hostname base d))
        /\ (link_url l ∉ urls (external (links_of URL_hostname base d)))
   else link_url l ∈ urls (external (links_of URL_hostname base d))
        /\ (link_url l ∉ urls (internal (links_of URL_hostname base d))))
  /\ (isNofollow l = true -> link_url l ∈ urls (nofollow (links_of URL_hostname base d))).
Proof.
  intros Hl. rewrite links_of_filed. cbn [internal external nofollow].
  destruct (is_internal URL_hostname base l) eqn:E;
    rewrite !urls_uniqueLinks_elem, !urls_filter_elem; repeat split.
  - now exists l.
  - intros (l' & _ & HP & Hu).
    rewrite (is_internal_url l' l Hu), E in HP. discriminate.
  - intros Hn. now exists l.
  - exists l. now rewrite E.
  - intros (l' & _ & HP & Hu).
    rewrite (is_internal_url l' l Hu), E in HP. discriminate.
  - intros Hn. now exists l.
Qed.

(** A url the loop skips is in no bucket. *)
Lemma skipped_nowhere (d : document) (href : string) :
  Js.startsWith href "#" || Js.startsWith href "javascript:" = true ->
  (href ∉ urls (internal (links_of URL_hostname base d)))
  /\ (href ∉ urls (external (links_of URL_hostname base d)))
  /\ (href ∉ urls (nofollow (links_of URL_hostname base d))).
Proof.
  intros Hskip. rewrite links_of_filed. cbn [internal external nofollow].
  rewrite !urls_uniqueLinks_elem, !urls_filter_elem.
  repeat split; intros (l & Hl & _ & Hu); apply kept_not_skipped in Hl;
    rewrite Hu in Hl; congruence.
Qed.

End LinkFacts.

Section LinkClaims.

Variable URL_hostname : string -> option string.
Variable base : string.

(** C5 (as the code has it).  For an anchor of the document whose [href]
    is not the empty string (an anchor with an empty [href] is skipped):
    - if the href starts with [#] or [javascript:], no bucket has a record
      with that url;
    - otherwise, if it starts with [http] and parses to the same host name
      as the page's url, the url is in [internal] and not in [external];
    - if it starts with [http] and parses to another host name, or does not
      parse, the url is in [external] and not in [internal];
    - if it does not start with [http], the url is in [internal] and not in
      [external];
    - and, unless skipped, if the lower-cased [rel] attribute contains
      [nofollow], the url is in [nofollow] as well. *)
Theorem extractLinks_classifies (d : document) (elem : node) (href : string) :
  elem ∈ anchors d ->
  attr "href" elem = Some href ->
  href <> "" ->
  let r := links_of URL_hostname base d in
  let into_internal := href ∈ urls (internal r) /\ (href ∉ urls (external r)) in
  let into_external := href ∈ urls (external r) /\ (href ∉ urls (internal r)) in
  (Js.startsWith href "#" = true \/ Js.startsWith href "javascript:" = true ->
   (href ∉ urls (internal r)) /\ (href ∉ urls (external r)) /\ (href ∉ urls (nofollow r)))
  /\ (Js.startsWith href "#" = false -> Js.startsWith href "javascript:" = false ->
      (Js.startsWith href "http" = true ->
       forall h, URL_hostname href = Some h -> URL_hostname base = Some h -> into_internal)
      /\ (Js.startsWith href "http" = true ->
          forall h b, URL_hostname href = Some h -> URL_hostname base = Some b -> h <> b ->
                      into_external)
      /\ (Js.startsWith href "http" = true -> URL_hostname href = None -> into_external)
      /\ (Js.startsWith href "http" = false -> into_internal)
      /\ (Contains (Js.toLowerCase (Js.or_else (attr "rel" elem) "")) "nofollow" ->
          href ∈ urls (nofollow r))).
Proof.
  intros He Hhref Hne r into_internal into_external. subst r into_internal into_external.
  split.
  - intros Hskip. apply skipped_nowhere. apply orb_true_iff. exact Hskip.
  - intros Hhash Hjs.
    assert (Hrec : link_record elem = Some (link_of elem href)).
    { unfold link_record. rewrite Hhref. destruct href as [|a href]; [congruence|].
      cbn [Js.truthy Js.or_else andb]. rewrite Hhash, Hjs. reflexivity. }
    pose proof (kept_filed URL_hostname base d _ (link_record_kept d elem _ He Hrec))
      as [Hbucket Hnofollow].
    cbn [link_of link_url] in Hbucket, Hnofollow. unfold is_internal in Hbucket.
    cbn [link_of link_url isNofollow] in Hbucket, Hnofollow.
    split; [|split; [|split; [|split]]].
    + intros Hhttp h Hh Hb. rewrite Hhttp in Hbucket. unfold same_host in Hbucket.
      rewrite Hh, Hb, String.eqb_refl in Hbucket. apply Hbucket.
    + intros Hhttp h b Hh Hb Hhb. rewrite Hhttp in Hbucket. unfold same_host in Hbucket.
      rewrite Hh, Hb in Hbucket. apply String.eqb_neq in Hhb. rewrite Hhb in Hbucket.
      apply Hbucket.
    + intros Hhttp Hh. rewrite Hhttp in Hbucket. unfold same_host in Hbucket.
      rewrite Hh in Hbucket. apply Hbucket.
    + intros Hhttp. rewrite Hhttp in Hbucket. apply Hbucket.
    + intros Hrel. apply Hnofollow. apply includes_spec. exact Hrel.
Qed.

(** C6.  After [extractLinks], each of [internal], [external] and
    [nofollow] holds at most one record per url (urls compared as strings),
    the record kept for a url is the first one the loop pushed to that
    bucket, and no url of the bucket is lost.  The loop pushes in document
    order: its buckets are the kept records of the document, filtered. *)
Theorem extractLinks_deduplicates (d : document) :
  deduplicated (internal (collect_links URL_hostname base d))
               (internal (links_of URL_hostname base d))
  /\ deduplicated (external (collect_links URL_hostname base d))
                  (external (links_of URL_hostname base d))
  /\ deduplicated (nofollow (collect_links URL_hostname base d))
                  (nofollow (links_of URL_hostname base d))
  /\ collect_links URL_hostname base d
     = filed URL_hostname base empty_links (kept_links d).
Proof.
  unfold links_of. cbn [internal external nofollow].
  repeat split; try apply uniqueLinks_deduplicated. apply collect_links_filed.
Qed.


End LinkClaims.

(** C5 (as the specification words it) fails: an anchor whose [href] is the
    empty string matches [a[href]] and starts with neither [#],
    [javascript:] nor a scheme, yet it is filed nowhere. *)
Lemma extractLinks_skips_empty_href :
  let a := Element "a" [("href", "")] [Text "home"] in
  let d := Sample.page [] [a] in
  anchors d = [a]
  /\ attr "href" a = Some ""
  /\ Js.startsWith "" "#" || Js.startsWith "" "javascript:" || Js.startsWith "" "http" = false
  /\ links_of Sample.hostname "https://a.example/" d = empty_links.
Proof. vm_compute. repeat split. Qed.

(** The scheme test of the code is the prefix [http]: an address of another
    scheme and host is filed as internal, without being parsed. *)
Example extractLinks_other_scheme :
  let a := Element "a" [("href", "ftp://b.example/file")] [Text "file"] in
  urls (internal (links_of Sample.hostname "https://a.example/" (Sample.page [] [a])))
  = ["ftp://b.example/file"].
Proof. reflexivity. Qed.

Lemma extractLinks_classifies_witness :
  let a := Element "a" [("href", "/about"); ("rel", "NoFollow")] [Text "About"] in
  let d := Sample.page [] [a] in
  let r := links_of Sample.hostname "https://a.example/" d in
  a ∈ anchors d /\ attr "href" a = Some "/about" /\ "/about" <> ""
  /\ ("/about" ∈ urls (internal r) /\ ("/about" ∉ urls (external r)))
  /\ "/about" ∈ urls (nofollow r).
Proof.
  pose (a := Element "a" [("href", "/about"); ("rel", "NoFollow")] [Text "About"]).
  assert (Ha : a ∈ anchors (Sample.page [] [a])) by (vm_compute; apply list_elem_of_here).
  assert (Hh : attr "href" a = Some "/about") by reflexivity.
  assert (Hn : "/about" <> "") by discriminate.
  destruct (extractLinks_classifies Sample.hostname "https://a.example/"
              (Sample.page [] [a]) a "/about" Ha Hh Hn) as [_ H].
  destruct (H eq_refl eq_refl) as (_ & _ & _ & Hint & Hnf).
  split; [exact Ha|]. split; [exact Hh|]. split; [exact Hn|].
  split; [exact (Hint eq_refl)|]. apply Hnf, includes_spec. reflexivity.
Defined.

(* ===================================================================== *)
(** * The HTML version *)
(* ===================================================================== *)

(** C7.  [getHtmlVersion] looks at the doctype string (the text matched by
    the doctype pattern, or the empty string) in this order: containing
    [HTML 4] gives [HTML4]; otherwise containing [XHTML] gives [XHTML];
    otherwise containing [HTML5] or being exactly [<!DOCTYPE html>] gives
    [HTML5]; otherwise [Unknown].  So a doctype containing both [HTML 4]
    and [HTML5] is [HTML4]. *)
Theorem getHtmlVersion_precedence (this : scraper) :
  let doctype := Js.or_else (match_doctype (html this)) "" in
  (Contains doctype "HTML 4" -> getHtmlVersion this = "HTML4")
  /\ (~ Contains doctype "HTML 4" -> Contains doctype "XHTML" ->
      getHtmlVersion this = "XHTML")
  /\ (~ Contains doctype "HTML 4" -> ~ Contains doctype "XHTML" ->
      Contains doctype "HTML5" \/ doctype = "<!DOCTYPE html>" ->
      getHtmlVersion this = "HTML5")
  /\ (~ Contains doctype "HTML 4" -> ~ Contains doctype "XHTML" ->
      ~ Contains doctype "HTML5" -> doctype <> "<!DOCTYPE html>" ->
      getHtmlVersion this = "Unknown")
  /\ (Contains doctype "HTML 4" -> Contains doctype "HTML5" ->
      getHtmlVersion this = "HTML4").
Proof.
  intros doctype. unfold getHtmlVersion. fold doctype.
  split; [|split; [|split; [|split]]].
  - intros H4. apply includes_spec in H4. now rewrite H4.
  - intros H4 HX. apply includes_false in H4. apply includes_spec in HX.
    now rewrite H4, HX.
  - intros H4 HX H5. apply includes_false in H4. apply includes_false in HX.
    rewrite H4, HX. destruct H5 as [H5|H5].
    + apply includes_spec in H5. now rewrite H5.
    + apply String.eqb_eq in H5. rewrite H5. now rewrite orb_true_r.
  - intros H4 HX H5 Hd. apply includes_false in H4. apply includes_false in HX.
    apply includes_false in H5. apply String.eqb_neq in Hd.
    now rewrite H4, HX, H5, Hd.
  - intros H4 _. apply includes_spec in H4. now rewrite H4.
Qed.

Example getHtmlVersion_html5 :
  getHtmlVersion (Sample.scraper_of "<!DOCTYPE html><html></html>" []) = "HTML5".
Proof. reflexivity. Qed.

Example getHtmlVersion_html4_first :
  getHtmlVersion
    (Sample.scraper_of "<!DOCTYPE HTML PUBLIC '-//W3C//DTD HTML 4.01//EN' 'HTML5'><html></html>" [])
  = "HTML4".
Proof. reflexivity. Qed.

(* ===================================================================== *)
(** * Images *)
(* ===================================================================== *)

Lemma len_cons {A : Type} (x : A) (l : list A) : len (x :: l) = 1 + len l.
Proof. unfold len. cbn [List.length]. lia. Qed.

Lemma len_nil {A : Type} : len (@nil A) = 0.
Proof. reflexivity. Qed.

Lemma image_callback_record (images : images_t) (elem : node) :
  image_callback images elem
  = match image_record elem with
    | None => images
    | Some i => counted images [i]
    end.
Proof.
  unfold image_callback, image_record.
  destruct (Js.truthy (attr "src" elem)); cbn [negb]; [|reflexivity].
  set (i := image_of elem (Js.or_else (attr "src" elem) "")).
  unfold counted. cbn [List.filter].
  destruct (hasAlt i), (isLazy i);
    cbn [negb withAlt withoutAlt lazyLoaded counts total n_withAlt n_withoutAlt n_lazyLoaded];
    rewrite ?len_cons, ?len_nil, ?app_nil_r, ?Z.add_0_r; reflexivity.
Qed.

Lemma counted_counted (acc : images_t) (r1 r2 : list image) :
  counted (counted acc r1) r2 = counted acc (r1 ++ r2).
Proof.
  unfold counted. cbn [withAlt withoutAlt lazyLoaded counts total n_withAlt n_withoutAlt
                       n_lazyLoaded].
  rewrite !List.filter_app, !len_app, <- !app_assoc. f_equal. f_equal; lia.
Qed.

Lemma counted_nil (acc : images_t) : counted acc [] = acc.
Proof.
  unfold counted. cbn [List.filter]. rewrite !app_nil_r, !len_nil, !Z.add_0_r.
  destruct acc as [? ? ? []]. reflexivity.
Qed.

Lemma fold_image_callback (l : list node) (acc : images_t) :
  fold_left image_callback l acc = counted acc (omap image_record l).
Proof.
  revert acc. induction l as [|elem l IH]; intros acc; cbn [fold_left omap list_omap].
  - now rewrite counted_nil.
  - rewrite IH, image_callback_record. fold (omap image_record l).
    destruct (image_record elem) as [i|]; [|reflexivity].
    now rewrite counted_counted.
Qed.

(** C8.  With [recs] the records of the [img] elements that have a (non
    empty) [src], in document order: [withAlt] holds the records with an
    alt text and [withoutAlt] the others, so every record is in exactly one
    of the two; [lazyLoaded] holds the lazy ones; each count is the length
    of its bucket and [total] is the number of records, the sum of the two
    alt buckets.  An [img] without [src] is no record, and the callback
    leaves buckets and counts as they are. *)
Theorem extractImages_counts (d : document) :
  let r := images_of d in
  let recs := recorded_images d in
  withAlt r = List.filter hasAlt recs
  /\ withoutAlt r = List.filter (fun i => negb (hasAlt i)) recs
  /\ lazyLoaded r = List.filter isLazy recs
  /\ (forall i, i ∈ recs ->
        (hasAlt i = true /\ i ∈ withAlt r /\ (i ∉ withoutAlt r))
        \/ (hasAlt i = false /\ i ∈ withoutAlt r /\ (i ∉ withAlt r)))
  /\ total (counts r) = len recs
  /\ n_withAlt (counts r) = len (withAlt r)
  /\ n_withoutAlt (counts r) = len (withoutAlt r)
  /\ n_lazyLoaded (counts r) = len (lazyLoaded r)
  /\ total (counts r) = len (withAlt r) + len (withoutAlt r)
  /\ (forall images elem,
        attr "src" elem = None ->
        image_record elem = None /\ image_callback images elem = images).
Proof.
  intros r recs. subst r. unfold images_of. rewrite fold_image_callback.
  fold (recorded_images d). fold recs. unfold counted, empty_images.
  cbn [withAlt withoutAlt lazyLoaded counts total n_withAlt n_withoutAlt n_lazyLoaded app].
  split; [reflexivity|]. split; [reflexivity|]. split; [reflexivity|].
  split.
  { intros i Hi. rewrite !list_elem_of_In, !filter_In, <- !list_elem_of_In.
    destruct (hasAlt i) eqn:E; [left|right]; cbn [negb]; intuition congruence. }
  split; [lia|]. split; [lia|]. split; [lia|]. split; [lia|].
  split.
  { clear. induction recs as [|i recs IH]; [reflexivity|].
    cbn [List.filter]. rewrite len_cons.
    destruct (hasAlt i); cbn [negb]; rewrite len_cons; lia. }
  intros images elem Hsrc.
  assert (H : image_record elem = None) by (unfold image_record; now rewrite Hsrc).
  split; [exact H|]. now rewrite image_callback_record, H.
Qed.

(* ===================================================================== *)
(** * Sections of the report *)
(* ===================================================================== *)

Section ReportClaims.

Variable JSON_parse : string -> option json.
Variable URL_hostname : string -> option string.









End ReportClaims.

(* ===================================================================== *)
(** * Open Graph: a nested property after a flat one *)
(* ===================================================================== *)

Lemma includes_cons_false (a : ascii) (s p : string) :
  Js.includes (String a s) p = false -> Js.includes s p = false.
Proof.
  rewrite includes_unfold. destruct (Js.startsWith (String a s) p); [discriminate|trivial].
Qed.

Lemma includes_colon_head (a : ascii) (s : string) :
  Js.includes (String a s) ":" = false -> Ascii.eqb a ":" = false.
Proof.
  rewrite includes_unfold. cbn [Js.startsWith].
  destruct (Ascii.eqb a ":"); [|reflexivity]. now destruct s.
Qed.

Lemma split_before_colon (x rest : string) :
  Js.includes x ":" = false ->
  Js.split (x +:+ ":" +:+ rest) ":" = x :: Js.split rest ":".
Proof.
  induction x as [|a x IH]; intros Hx; [reflexivity|].
  change (String a x +:+ ":" +:+ rest) with (String a (x +:+ ":" +:+ rest)).
  cbn [Js.split].
  rewrite (includes_colon_head a x Hx), (IH (includes_cons_false _ _ _ Hx)). reflexivity.
Qed.

Lemma split_no_colon (c : string) :
  Js.includes c ":" = false -> Js.split c ":" = [c].
Proof.
  induction c as [|a c IH]; intros Hc; [reflexivity|].
  cbn [Js.split].
  rewrite (includes_colon_head a c Hc), (IH (includes_cons_false _ _ _ Hc)). reflexivity.
Qed.

Lemma drop_prefix (p s : string) : Js.drop (String.length p) (p +:+ s) = s.
Proof. induction p as [|a p IH]; [now destruct s|exact IH]. Qed.

Lemma replace_prefix (p s r : string) : Js.replace (p +:+ s) p r = r +:+ s.
Proof.
  assert (H : Js.startsWith (p +:+ s) p = true) by (apply startsWith_spec; now exists s).
  destruct (p +:+ s) eqn:E; cbn [Js.replace]; rewrite H, <- E; now rewrite drop_prefix.
Qed.

(** The nested write [ogTags[x][c] = content] on an [x] that holds a
    string throws, whatever the names (short of the [__proto__] setter). *)
Lemma og_callback_nested_on_string (ogTags : gmap string og_value)
    (x c v content : string) (elem : node) :
  attr "property" elem = Some ("og:" +:+ x +:+ ":" +:+ c) ->
  attr "content" elem = Some content ->
  content <> "" -> x <> "" ->
  Js.includes x ":" = false -> Js.includes c ":" = false ->
  c <> "__proto__" ->
  ogTags !! x = Some (OgString v) ->
  og_callback ogTags elem = inl TypeError.
Proof.
  intros Hp Hc Hcontent Hx Hxc Hcc Hproto Hog. unfold og_callback. rewrite Hp, Hc.
  rewrite replace_prefix. change ("" +:+ x +:+ ":" +:+ c) with (x +:+ ":" +:+ c).
  destruct x as [|a x]; [congruence|]. destruct content as [|b content]; [congruence|].
  change (Js.truthy (Some (String a x +:+ ":" +:+ c))) with true.
  cbn [Js.truthy andb].
  assert (Hinc : Js.includes (String a x +:+ ":" +:+ c) ":" = true).
  { apply includes_spec. now exists (String a x), c. }
  rewrite Hinc, (split_before_colon _ _ Hxc), (split_no_colon _ Hcc).
  cbn [nth]. rewrite Hog. apply String.eqb_neq in Hproto. now rewrite Hproto.
Qed.

(** C2 on the code: [og:image] followed by [og:image:width].  The first
    tag stores the string under [image]; at the second the callback throws
    a [TypeError], so does [extractOpenGraphMetadata], and the report of
    [analyze] has no [open_graph] section at all, where the specification
    expects [image] bound to a nested mapping with [width]. *)
Theorem og_nested_after_flat_throws :
  let this := Sample.scraper_of "" Sample.og_page in
  og_metas Sample.og_page
  = [ Sample.meta "og:image" "https://a.example/i.png"; Sample.meta "og:image:width" "400" ]
  /\ og_callback ∅ (Sample.meta "og:image" "https://a.example/i.png")
     = inr {[ "image" := OgString "https://a.example/i.png" ]}
  /\ og_callback {[ "image" := OgString "https://a.example/i.png" ]}
                 (Sample.meta "og:image:width" "400")
     = inl TypeError
  /\ extractOpenGraphMetadata this = Thrown TypeError this
  /\ seo (analyze Sample.parse Sample.hostname this) !! SEO_CATEGORIES.OPEN_GRAPH = None.
Proof.
  intros this. split; [reflexivity|]. split; [reflexivity|]. split.
  { apply (og_callback_nested_on_string _ "image" "width" "https://a.example/i.png" "400");
      try reflexivity; try discriminate. }
  split; [reflexivity|]. vm_compute. reflexivity.
Qed.

(* ===================================================================== *)
(** * The claims of the specification that fail, on sample pages *)
(* ===================================================================== *)

(** C3 (as the specification words it) fails.  On a page with
    [og:image:width] after [og:image] the Open Graph extractor throws; the
    other eight steps run and pass, and the report has no entry under
    [open_graph]: the category of the throwing extractor is omitted. *)
Lemma analyze_omits_throwing_category :
  let this := Sample.scraper_of "<!DOCTYPE html>" Sample.og_page in
  returns (extractOpenGraphMetadata this) = false
  /\ analyze_log Sample.parse Sample.hostname this
     = [ Passed "Basic Metadata"; Warned "Open Graph Tags" TypeError;
         Passed "Twitter Cards"; Passed "Schema Markup"; Passed "Technical SEO";
         Passed "Links Analysis"; Passed "Headings Structure"; Passed "Images Analysis";
         Passed "Performance Metrics" ]
  /\ seo (analyze Sample.parse Sample.hostname this) !! SEO_CATEGORIES.OPEN_GRAPH = None.
Proof. vm_compute. repeat split. Qed.

(** When every extractor throws (the page was never fetched) [analyze]
    still returns: the report of the constructor, without any section. *)
Example analyze_unfetched :
  let this := new_SEOScraper "https://a.example/" "2024-01-01T00:00:00.000Z" in
  analyze Sample.parse Sample.hostname this = metadata this
  /\ seo (metadata this) = ∅
  /\ map line_name (analyze_log Sample.parse Sample.hostname this)
     = map step_name (steps Sample.parse Sample.hostname).
Proof. vm_compute. repeat split. Qed.




(* ===================================================================== *)
(** * Selections *)
(* ===================================================================== *)

Lemma select_matches (d : document) (s : selector) (n : node) :
  n ∈ select d s -> matches s n = true.
Proof.
  unfold select. rewrite list_elem_of_In, filter_In. tauto.
Qed.

(** An element selected by [tag[a^="v"]] has attribute [a], and its value
    starts with [v]. *)
Lemma select_begins (d : document) (t a v : string) (n : node) :
  n ∈ select d (tag_with t [Begins a v]) ->
  exists rest, attr a n = Some (v +:+ rest).
Proof.
  intros Hn. apply select_matches in Hn. unfold matches, tag_with in Hn.
  cbn [existsb] in Hn. rewrite orb_false_r in Hn. unfold matches_compound in Hn.
  cbn [sel_tag sel_attrs sel_not forallb existsb] in Hn.
  apply andb_true_iff in Hn as [Hn _]. apply andb_true_iff in Hn as [_ Hn].
  rewrite andb_true_r in Hn. unfold test_attr in Hn.
  destruct v as [|b v]; [discriminate|]. destruct (attr a n) as [w|]; [|discriminate].
  apply startsWith_spec in Hn as [rest ->]. now exists rest.
Qed.

Lemma len_filter_le {A : Type} (P : A -> bool) (l : list A) :
  len (List.filter P l) <= len l.
Proof.
  induction l as [|x l IH]; [reflexivity|]. cbn [List.filter].
  destruct (P x); rewrite !len_cons; lia.
Qed.

Lemma len_filter_split {A : Type} (P : A -> bool) (l : list A) :
  len (List.filter P l) + len (List.filter (fun x => negb (P x)) l) = len l.
Proof.
  induction l as [|x l IH]; [reflexivity|]. cbn [List.filter].
  destruct (P x); cbn [negb]; rewrite !len_cons; lia.
Qed.

Lemma len_filter_impl {A : Type} (P Q : A -> bool) (l : list A) :
  (forall x, P x = true -> Q x = true) ->
  len (List.filter P l) <= len (List.filter Q l).
Proof.
  intros HPQ. induction l as [|x l IH]; [reflexivity|]. cbn [List.filter].
  destruct (P x) eqn:E.
  - rewrite (HPQ x E), !len_cons. lia.
  - destruct (Q x); rewrite ?len_cons; lia.
Qed.

Lemma len_nonneg {A : Type} (l : list A) : 0 <= len l.
Proof. unfold len. lia. Qed.

(* ===================================================================== *)
(** * Twitter cards *)
(* ===================================================================== *)

Lemma lookup_assign {V : Type} (k c : string) (v : V) (o : gmap string V) :
  assign k v o !! c
  = if String.eqb c "__proto__" then o !! c
    else if String.eqb k c then Some v else o !! c.
Proof.
  unfold assign. destruct (String.eqb_spec k "__proto__") as [->|Hk].
  - destruct (String.eqb_spec c "__proto__") as [->|Hc]; [reflexivity|].
    destruct (String.eqb_spec "__proto__" c); [congruence|reflexivity].
  - destruct (String.eqb_spec k c) as [->|Hkc].
    + destruct (String.eqb_spec c "__proto__"); [congruence|]. apply lookup_insert_eq.
    + rewrite lookup_insert_ne by exact Hkc. now destruct (String.eqb c "__proto__").
Qed.

(** Assignments in sequence: the last one under a name wins, and the name
    [__proto__] is never assigned. *)
Lemma lookup_fold_assign {V : Type} (l : list (string * V)) (o : gmap string V)
    (c : string) :
  fold_left (fun o e => assign (fst e) (snd e) o) l o !! c
  = if String.eqb c "__proto__" then o !! c
    else match last_value c l with
         | Some v => Some v
         | None => o !! c
         end.
Proof.
  revert o. induction l as [|[k v] l IH]; intros o; cbn [fold_left last_value fst snd].
  - now destruct (String.eqb c "__proto__").
  - rewrite IH, lookup_assign. destruct (String.eqb c "__proto__"); [reflexivity|].
    destruct (last_value c l); [reflexivity|]. now destruct (String.eqb k c).
Qed.





(** The name of an entry is what follows the first [twitter:]. *)
Lemma twitter_entry_name (d : document) (elem : node) (e : string * string) :
  elem ∈ twitter_metas d -> twitter_entry elem = Some e ->
  attr "name" elem = Some ("twitter:" +:+ fst e) /\ fst e <> "" /\ snd e <> ""
  /\ attr "content" elem = Some (snd e).
Proof.
  intros He Hentry. apply select_begins in He as [rest Hn].
  unfold twitter_entry in Hentry. rewrite Hn in Hentry. cbn [from_option id] in Hentry.
  rewrite replace_prefix in Hentry. change ("" +:+ rest) with rest in Hentry.
  destruct rest as [|a rest]; [discriminate|]. cbn [Js.truthy andb] in Hentry.
  destruct (attr "content" elem) as [[|b c]|]; try discriminate.
  inversion Hentry. subst e. cbn [fst snd Js.or_else]. rewrite Hn.
  repeat split; discriminate.
Qed.

(* ===================================================================== *)
(** * More on the pipeline *)
(* ===================================================================== *)

Lemma commit_header (this : scraper) (l : list (string * (error + section))) :
  meta_url (metadata (fold_left commit l this)) = meta_url (metadata this)
  /\ timestamp (metadata (fold_left commit l this)) = timestamp (metadata this)
  /\ same_page this (fold_left commit l this).
Proof.
  revert this. induction l as [|cr l IH]; intros this; cbn [fold_left].
  - repeat split.
  - destruct (IH (commit this cr)) as (Hu & Ht & Hu' & Hh & Hd).
    rewrite Hu, Ht. unfold same_page. rewrite <- Hu', <- Hh, <- Hd. unfold commit.
    destruct (snd cr); repeat split.
Qed.


Section PipelineExtras.

Variable JSON_parse : string -> option json.
Variable URL_hostname : string -> option string.


(** X2.  [analyze] never touches the head of the report: [url] and
    [timestamp] are those the constructor stored, whatever the extractors
    do. *)
Theorem analyze_keeps_url_and_timestamp (this : scraper) :
  meta_url (analyze JSON_parse URL_hostname this) = meta_url (metadata this)
  /\ timestamp (analyze JSON_parse URL_hostname this) = timestamp (metadata this).
Proof.
  unfold analyze. rewrite run_steps_eq. cbn [fst].
  destruct (commit_header this (sections_of JSON_parse URL_hostname this)) as (Hu & Ht & _).
  now split.
Qed.


(** X4.  Before [fetchPage] has run, [this.$] is [null]: every one of the
    nine extractors throws, [analyze] logs nine warnings and returns the
    report as it was. *)
Theorem analyze_before_fetch (this : scraper) :
  dollar this = None ->
  analyze JSON_parse URL_hostname this = metadata this
  /\ analyze_log JSON_parse URL_hostname this
     = map (fun s => Warned (step_name s) TypeError) (steps JSON_parse URL_hostname).
Proof.
  intros Hd.
  assert (Hsec : Forall (fun x => ex_section x this = inl TypeError)
                        (extractors JSON_parse URL_hostname)).
  { unfold extractors, steps, SEO_CATEGORIES.all. cbn [zip zip_with map].
    repeat apply Forall_cons_2; try apply Forall_nil_2;
      cbn [ex_section]; unfold on_page; now rewrite Hd. }
  rewrite Forall_forall in Hsec. split.
  - unfold analyze. rewrite run_steps_eq. cbn [fst]. unfold sections_of.
    assert (H : forall l : list extractor,
              (forall x, x ∈ l -> ex_section x this = inl TypeError) ->
              fold_left commit (map (fun x => (ex_category x, ex_section x this)) l) this
              = this).
    { induction l as [|x l IH]; intros Hl; [reflexivity|].
      cbn [map fold_left]. unfold commit at 2. cbn [fst snd].
      rewrite (Hl x (list_elem_of_here _ _)). apply IH.
      intros y Hy. apply Hl, list_elem_of_further, Hy. }
    now rewrite H.
  - rewrite analyze_log_eq, <- (extractors_steps JSON_parse URL_hostname), map_map.
    apply map_ext_in. intros x Hx. apply list_elem_of_In in Hx.
    now rewrite (Hsec x Hx).
Qed.




End PipelineExtras.

(* ===================================================================== *)
(** * Open Graph: when the extractor throws *)
(* ===================================================================== *)

Lemma og_callback_tag (ogTags : gmap string og_value) (elem : node) :
  attr "property" elem <> None ->
  og_callback ogTags elem
  = match og_tag_of elem with
    | Some t => og_apply ogTags t
    | None => inr ogTags
    end.
Proof.
  intros Hp. unfold og_callback, og_tag_of.
  destruct (attr "property" elem) as [p|]; [|congruence]. cbn [from_option id].
  destruct (Js.truthy (Some (Js.replace p "og:" "")) && Js.truthy (attr "content" elem));
    [|reflexivity].
  destruct (Js.includes (Js.replace p "og:" "") ":"); reflexivity.
Qed.

Lemma each_og (l : list node) (ogTags : gmap string og_value) :
  (forall elem, elem ∈ l -> attr "property" elem <> None) ->
  each l og_callback ogTags = og_run (omap og_tag_of l) ogTags.
Proof.
  revert ogTags. induction l as [|elem l IH]; intros ogTags Hl; [reflexivity|].
  cbn [each omap list_omap]. fold (omap og_tag_of l).
  rewrite og_callback_tag by (apply Hl, list_elem_of_here).
  assert (Hl' : forall e, e ∈ l -> attr "property" e <> None)
    by (intros e He; apply Hl, list_elem_of_further, He).
  destruct (og_tag_of elem) as [t|]; cbn [og_run]; [|now apply IH].
  destruct (og_apply ogTags t); [reflexivity|now apply IH].
Qed.

Lemma ogTags_of_run (d : document) : ogTags_of d = og_run (og_tags d) ∅.
Proof.
  unfold ogTags_of, og_tags. apply each_og. intros elem He.
  apply select_begins in He as [rest ->]. discriminate.
Qed.








(* ===================================================================== *)
(** * Open Graph: flat tags only, nested tags only *)
(* ===================================================================== *)

Lemma og_run_flat (tags : list og_tag) (o : gmap string og_value) :
  forallb is_flat tags = true ->
  og_run tags o
  = inr (fold_left (fun o e => assign (fst e) (snd e) o)
                   (map (fun e => (fst e, OgString (snd e))) (flat_entries tags)) o).
Proof.
  revert o. induction tags as [|[p v|p c w] ts IH]; intros o Hflat; cbn in Hflat;
    [reflexivity| |discriminate].
  cbn [og_run og_apply flat_entries omap list_omap map fold_left fst snd].
  now apply IH.
Qed.

Lemma last_value_map {V W : Type} (f : V -> W) (k : string) (l : list (string * V)) :
  last_value k (map (fun e => (fst e, f (snd e))) l) = f <$> last_value k l.
Proof.
  induction l as [|[k' v] l IH]; [reflexivity|]. cbn [map last_value fst snd].
  rewrite IH. destruct (last_value k l); [reflexivity|]. now destruct (String.eqb k' k).
Qed.

Lemma size_fold_assign {V : Type} (l : list (string * V)) (o : gmap string V) :
  NoDup (map fst l) ->
  (forall k, k ∈ map fst l -> k <> "__proto__" /\ o !! k = None) ->
  size (fold_left (fun o e => assign (fst e) (snd e) o) l o)
  = (size o + List.length l)%nat.
Proof.
  revert o. induction l as [|[k v] l IH]; intros o Hnd Hl; cbn [fold_left map fst snd].
  - cbn. lia.
  - cbn [map fst] in Hnd, Hl. apply NoDup_cons in Hnd as [Hk Hnd].
    destruct (Hl k (list_elem_of_here _ _)) as [Hproto Hnone].
    rewrite IH.
    + unfold assign. apply String.eqb_neq in Hproto. rewrite Hproto.
      rewrite map_size_insert_None by exact Hnone. cbn [List.length]. lia.
    + exact Hnd.
    + intros k' Hk'. destruct (Hl k' (list_elem_of_further _ _ _ Hk')) as [Hp Hn].
      split; [exact Hp|]. rewrite lookup_assign. apply String.eqb_neq in Hp. rewrite Hp.
      destruct (String.eqb_spec k k') as [->|_]; [contradiction|exact Hn].
Qed.

(** X7.  On a page whose Open Graph tags are all flat the extractor
    returns, and the section maps each property to the content of the last
    tag that has it.  With [N] tags of distinct properties the section has
    exactly [N] keys. *)
Theorem ogTags_flat (d : document) :
  forallb is_flat (og_tags d) = true ->
  exists o, ogTags_of d = inr o
            /\ (forall k, o !! k
                          = if String.eqb k "__proto__" then None
                            else OgString <$> last_value k (flat_entries (og_tags d)))
            /\ (NoDup (map fst (flat_entries (og_tags d))) ->
                "__proto__" ∉ map fst (flat_entries (og_tags d)) ->
                size o = List.length (og_tags d)).
Proof.
  intros Hflat. eexists. split; [|split].
  - rewrite ogTags_of_run. now apply og_run_flat.
  - intros k. rewrite lookup_fold_assign, lookup_empty, last_value_map.
    destruct (String.eqb k "__proto__"); [reflexivity|].
    now destruct (last_value k (flat_entries (og_tags d))).
  - intros Hnd Hproto. rewrite size_fold_assign.
    + rewrite map_size_empty, length_map. cbn [Nat.add].
      clear Hnd Hproto. induction (og_tags d) as [|[p v|p c w] ts IH];
        cbn in Hflat |- *; [reflexivity| |discriminate].
      f_equal. now apply IH.
    + now rewrite map_map.
    + intros k Hk. rewrite map_map in Hk. cbn [fst] in Hk.
      split; [intros ->; now apply Hproto|apply lookup_empty].
Qed.

Lemma children_of_cons_other (p q c w : string) (ts : list og_tag) :
  q <> p -> children_of p (OgNested q c w :: ts) = children_of p ts.
Proof.
  intros Hne. unfold children_of. cbn [omap list_omap].
  apply String.eqb_neq in Hne. now rewrite Hne.
Qed.

Lemma children_of_cons_same (p c w : string) (ts : list og_tag) :
  children_of p (OgNested p c w :: ts) = (c, w) :: children_of p ts.
Proof. unfold children_of. cbn [omap list_omap]. now rewrite String.eqb_refl. Qed.

Lemma og_run_nested (tags : list og_tag) (o : gmap string og_value) :
  forallb is_plain_nested tags = true ->
  (forall p, ~ is_string o p) ->
  exists o', og_run tags o = inr o'
             /\ forall p, o' !! p
                          = match o !! p, children_of p tags with
                            | Some (OgObject n), es => Some (OgObject (nest es n))
                            | Some (OgString v), _ => Some (OgString v)
                            | None, [] => None
                            | None, es => Some (OgObject (nest es ∅))
                            end.
Proof.
  revert o. induction tags as [|[q v|q c w] ts IH]; intros o Hall Hstr;
    cbn [forallb is_plain_nested andb] in Hall; [|discriminate|].
  - exists o. split; [reflexivity|]. intros p. cbn [children_of omap list_omap].
    destruct (o !! p) as [[s|n]|]; reflexivity.
  - apply andb_true_iff in Hall as [Hq Hall]. apply negb_true_iff in Hq.
    cbn [og_run og_apply].
    destruct (o !! q) as [[s|n]|] eqn:Hoq.
    + exfalso. apply (Hstr q). now exists s.
    + destruct (IH (<[q := OgObject (assign c w n)]> o) Hall) as (o' & Hrun & Hlook).
      { intros p [s Hs]. destruct (decide (q = p)) as [->|Hne].
        - rewrite lookup_insert_eq in Hs. discriminate.
        - rewrite lookup_insert_ne in Hs by exact Hne. apply (Hstr p). now exists s. }
      exists o'. split; [exact Hrun|]. intros p. rewrite Hlook.
      destruct (decide (q = p)) as [->|Hne].
      * rewrite lookup_insert_eq, Hoq, children_of_cons_same. reflexivity.
      * rewrite lookup_insert_ne by exact Hne. now rewrite children_of_cons_other.
    + rewrite Hq.
      destruct (IH (<[q := OgObject (assign c w ∅)]> o) Hall) as (o' & Hrun & Hlook).
      { intros p [s Hs]. destruct (decide (q = p)) as [->|Hne].
        - rewrite lookup_insert_eq in Hs. discriminate.
        - rewrite lookup_insert_ne in Hs by exact Hne. apply (Hstr p). now exists s. }
      exists o'. split; [exact Hrun|]. intros p. rewrite Hlook.
      destruct (decide (q = p)) as [->|Hne].
      * rewrite lookup_insert_eq, Hoq, children_of_cons_same. reflexivity.
      * rewrite lookup_insert_ne by exact Hne. now rewrite children_of_cons_other.
Qed.

(** X8.  On a page whose Open Graph tags are all nested (under parents
    that are not names of [Object.prototype]) the extractor returns, and
    the section maps each parent to one nested object that gathers all
    its children: a child is bound to the content of the last tag
    [og:parent:child].  So [og:image:width] and [og:image:height] give
    [image] bound to an object with [width] and [height], not two
    sibling keys. *)
Theorem ogTags_nested (d : document) :
  forallb is_plain_nested (og_tags d) = true ->
  exists o, ogTags_of d = inr o
            /\ forall p, o !! p
                         = match children_of p (og_tags d) with
                           | [] => None
                           | es => Some (OgObject (nest es ∅))
                           end
            /\ forall c, nest (children_of p (og_tags d)) ∅ !! c
                         = if String.eqb c "__proto__" then None
                           else last_value c (children_of p (og_tags d)).
Proof.
  intros Hall.
  destruct (og_run_nested (og_tags d) ∅ Hall) as (o & Hrun & Hlook).
  { intros p [v Hv]. now rewrite lookup_empty in Hv. }
  exists o. split; [now rewrite ogTags_of_run|]. intros p. split.
  - rewrite Hlook, lookup_empty. reflexivity.
  - intros c. unfold nest. rewrite lookup_fold_assign, lookup_empty.
    destruct (String.eqb c "__proto__"); [reflexivity|].
    now destruct (last_value c (children_of p (og_tags d))).
Qed.

(* ===================================================================== *)
(** * Microdata *)
(* ===================================================================== *)








(* ===================================================================== *)
(** * More on links *)
(* ===================================================================== *)

Lemma Set_from_acc_length (xs seen : list string) :
  (List.length (fold_left (fun seen x => if existsb (String.eqb x) seen then seen
                                         else seen ++ [x]) xs seen)
   <= List.length seen + List.length xs)%nat.
Proof.
  revert seen. induction xs as [|x xs IH]; intros seen; cbn [fold_left List.length].
  - lia.
  - destruct (existsb (String.eqb x) seen).
    + specialize (IH seen). lia.
    + specialize (IH (seen ++ [x])). rewrite length_app in IH. cbn [List.length] in IH. lia.
Qed.

Lemma len_uniqueLinks (arr : list link) : len (uniqueLinks arr) <= len arr.
Proof.
  unfold len.
  replace (List.length (uniqueLinks arr)) with (List.length (urls (uniqueLinks arr)))
    by (unfold urls; apply length_map).
  rewrite urls_uniqueLinks. unfold Set_from.
  pose proof (Set_from_acc_length (urls arr) []) as H. cbn [List.length Nat.add] in H.
  unfold urls in H at 2. rewrite length_map in H. lia.
Qed.

Lemma len_omap_le {A B : Type} (f : A -> option B) (l : list A) :
  len (omap f l) <= len l.
Proof.
  induction l as [|x l IH]; [reflexivity|]. cbn [omap list_omap]. fold (omap f l).
  destruct (f x); rewrite ?len_cons; lia.
Qed.

Lemma uniqueLinks_subset (arr : list link) (l : link) :
  l ∈ uniqueLinks arr -> l ∈ arr.
Proof.
  intros Hl. destruct (uniqueLinks_deduplicated arr) as (_ & Hfind & _).
  apply Hfind, find_some in Hl as [Hl _]. now apply list_elem_of_In.
Qed.

Lemma find_first_of_NoDup (arr : list link) (l : link) :
  NoDup (urls arr) -> l ∈ arr ->
  List.find (fun x => String.eqb (link_url x) (link_url l)) arr = Some l.
Proof.
  induction arr as [|a arr IH]; intros Hnd Hl; [now apply elem_of_nil in Hl|].
  cbn [urls map] in Hnd. apply NoDup_cons in Hnd as [Ha Hnd]. cbn [List.find].
  apply elem_of_cons in Hl as [->|Hl]; [now rewrite String.eqb_refl|].
  destruct (String.eqb_spec (link_url a) (link_url l)) as [Heq|_]; [|now apply IH].
  exfalso. apply Ha. rewrite Heq. unfold urls.
  apply (list_elem_of_fmap_2 link_url) in Hl. exact Hl.
Qed.

Lemma Set_from_acc_NoDup (xs seen : list string) :
  NoDup (seen ++ xs) ->
  fold_left (fun seen x => if existsb (String.eqb x) seen then seen else seen ++ [x]) xs seen
  = seen ++ xs.
Proof.
  revert seen. induction xs as [|x xs IH]; intros seen Hnd; cbn [fold_left].
  - now rewrite app_nil_r.
  - assert (Hx : existsb (String.eqb x) seen = false).
    { apply not_true_is_false. intros E. apply existsb_exists in E as (y & Hy & Hxy).
      apply String.eqb_eq in Hxy. subst y. apply list_elem_of_In in Hy.
      apply NoDup_app in Hnd as (_ & Hdisj & _). apply (Hdisj x Hy), list_elem_of_here. }
    rewrite Hx, IH; rewrite <- app_assoc; [reflexivity|exact Hnd].
Qed.

Lemma flat_map_find_self (arr : list link) (sub : list link) :
  (forall l, l ∈ sub ->
     List.find (fun x => String.eqb (link_url x) (link_url l)) arr = Some l) ->
  flat_map (fun u => option_list (List.find (fun l => String.eqb (link_url l) u) arr))
           (urls sub)
  = sub.
Proof.
  induction sub as [|l sub IH]; intros Hsub; [reflexivity|].
  cbn [urls map flat_map]. rewrite (Hsub l (list_elem_of_here _ _)). cbn [option_list app].
  f_equal. apply IH. intros l' Hl'. apply Hsub, list_elem_of_further, Hl'.
Qed.

(** X10.  [uniqueLinks] returns a list without duplicate urls unchanged,
    so removing duplicates twice is the same as removing them once. *)
Theorem uniqueLinks_idempotent (arr : list link) :
  (NoDup (urls arr) -> uniqueLinks arr = arr)
  /\ uniqueLinks (uniqueLinks arr) = uniqueLinks arr.
Proof.
  assert (H : forall a, NoDup (urls a) -> uniqueLinks a = a).
  { intros a Hnd. unfold uniqueLinks. fold (urls a). unfold Set_from.
    rewrite (Set_from_acc_NoDup (urls a) []) by exact Hnd. cbn [app].
    apply flat_map_find_self. intros l Hl. now apply find_first_of_NoDup. }
  split; [apply H|]. apply H. apply uniqueLinks_deduplicated.
Qed.

Section LinkExtras.

Variable URL_hostname : string -> option string.
Variable base : string.

Lemma bucket_kept (d : document) (l : link) :
  l ∈ internal (links_of URL_hostname base d)
  \/ l ∈ external (links_of URL_hostname base d)
  \/ l ∈ nofollow (links_of URL_hostname base d) ->
  l ∈ kept_links d.
Proof.
  rewrite links_of_filed. cbn [internal external nofollow].
  intros [H|[H|H]]; apply uniqueLinks_subset, list_elem_of_In, filter_In in H as [H _];
    now apply list_elem_of_In.
Qed.

(** X11.  The buckets of the links section:
    - no url is both in [internal] and in [external];
    - every record of [nofollow] is marked [isNofollow] and its url is also
      in [internal] or in [external];
    - every record of a bucket was built from an anchor of the document
      whose [href] is its url, a non-empty string that starts with neither
      [#] nor [javascript:];
    - [internal] and [external] together hold at most as many records as
      the document has [a[href]] elements (the [totalLinks] of the
      performance section). *)
Theorem links_buckets (d : document) :
  let r := links_of URL_hostname base d in
  (forall u, u ∈ urls (internal r) -> u ∉ urls (external r))
  /\ (forall l, l ∈ nofollow r ->
        isNofollow l = true
        /\ (link_url l ∈ urls (internal r) \/ link_url l ∈ urls (external r)))
  /\ (forall l, l ∈ internal r \/ l ∈ external r \/ l ∈ nofollow r ->
        link_url l <> ""
        /\ Js.startsWith (link_url l) "#" = false
        /\ Js.startsWith (link_url l) "javascript:" = false
        /\ exists elem, elem ∈ anchors d /\ attr "href" elem = Some (link_url l)
                        /\ l = link_of elem (link_url l))
  /\ len (internal r) + len (external r) <= len (anchors d).
Proof.
  intros r. subst r. split; [|split; [|split]].
  - intros u Hu. rewrite links_of_filed in Hu |- *. cbn [internal external] in *.
    rewrite urls_uniqueLinks_elem, urls_filter_elem in *.
    destruct Hu as (l & _ & Hl & Hu). intros (l' & _ & Hl' & Hu').
    rewrite (is_internal_url URL_hostname base l' l) in Hl' by congruence.
    rewrite Hl in Hl'. discriminate.
  - intros l Hl.
    assert (Hkept : l ∈ kept_links d) by (apply bucket_kept; tauto).
    rewrite links_of_filed in Hl. cbn [nofollow] in Hl.
    apply uniqueLinks_subset, list_elem_of_In, filter_In in Hl as [_ Hnf].
    split; [exact Hnf|].
    destruct (kept_filed URL_hostname base d l Hkept) as [Hb _].
    destruct (is_internal URL_hostname base l); [left|right]; apply Hb.
  - intros l Hl. apply bucket_kept in Hl.
    pose proof (kept_not_skipped d l Hl) as Hskip. apply orb_false_iff in Hskip as [Hh Hj].
    unfold kept_links in Hl. apply list_elem_of_omap in Hl as (elem & He & Hrec).
    unfold link_record in Hrec.
    destruct (attr "href" elem) as [[|a href]|] eqn:Hhref; cbn [Js.truthy andb] in Hrec;
      try discriminate.
    destruct (negb _) in Hrec; [|discriminate]. inversion Hrec. subst l.
    cbn [link_of link_url Js.or_else] in *.
    split; [discriminate|]. split; [exact Hh|]. split; [exact Hj|].
    exists elem. now repeat split.
  - rewrite links_of_filed. cbn [internal external].
    pose proof (len_uniqueLinks (List.filter (is_internal URL_hostname base) (kept_links d))).
    pose proof (len_uniqueLinks
                  (List.filter (fun l => negb (is_internal URL_hostname base l))
                               (kept_links d))).
    pose proof (len_filter_split (is_internal URL_hostname base) (kept_links d)).
    pose proof (len_omap_le link_record (anchors d)). fold (kept_links d) in *. lia.
Qed.

End LinkExtras.

(* ===================================================================== *)
(** * Counts across sections *)
(* ===================================================================== *)

Lemma filter_andb {A : Type} (P Q R : A -> bool) (l : list A) :
  (forall x, P x = Q x && R x) ->
  List.filter P l = List.filter R (List.filter Q l).
Proof.
  intros H. induction l as [|x l IH]; [reflexivity|]. cbn [List.filter].
  rewrite H. destruct (Q x); cbn [andb List.filter]; [|exact IH].
  destruct (R x); now rewrite IH.
Qed.

Lemma matches_tag_with (t : string) (ts : list attr_test) (n : node) :
  matches (tag_with t ts) n = matches (tag t) n && forallb (test_attr n) ts.
Proof.
  unfold matches, tag_with, tag. cbn [existsb]. unfold matches_compound.
  cbn [sel_tag sel_attrs sel_not forallb existsb negb].
  now rewrite !orb_false_r, !andb_true_r.
Qed.

Lemma matches_tag_without (t : string) (ts : list attr_test) (n : node) :
  matches (tag_without t ts) n = matches (tag t) n && negb (existsb (test_attr n) ts).
Proof.
  unfold matches, tag_without, tag. cbn [existsb]. unfold matches_compound.
  cbn [sel_tag sel_attrs sel_not forallb existsb negb].
  now rewrite !orb_false_r, !andb_true_r.
Qed.

Lemma select_tag_with (d : document) (t : string) (ts : list attr_test) :
  select d (tag_with t ts)
  = List.filter (fun n => forallb (test_attr n) ts) (select d (tag t)).
Proof. unfold select. apply filter_andb, matches_tag_with. Qed.

Lemma select_tag_without (d : document) (t : string) (ts : list attr_test) :
  select d (tag_without t ts)
  = List.filter (fun n => negb (existsb (test_attr n) ts)) (select d (tag t)).
Proof. unfold select. apply filter_andb, matches_tag_without. Qed.

Lemma len_omap_filter {A B : Type} (f : A -> option B) (l : list A) :
  len (omap f l) = len (List.filter (fun x => bool_decide (is_Some (f x))) l).
Proof.
  induction l as [|x l IH]; [reflexivity|]. cbn [omap list_omap List.filter].
  fold (omap f l). destruct (f x) as [y|].
  - rewrite bool_decide_eq_true_2 by eauto. now rewrite !len_cons, IH.
  - rewrite bool_decide_eq_false_2 by (intros [? ?]; discriminate). exact IH.
Qed.

(** X12.  Image counts across sections: the [total] of the images section
    (images with a non-empty [src]) is at most the number of [img[src]]
    elements the page-weight estimate charges for, which is at most the
    [totalImages] of the performance section (all [img] elements); and
    the lazy-loaded images are among the counted ones. *)
Theorem image_counts_across_sections (this : scraper) (d : document) (w : page_weight) :
  let c := counts (images_of d) in
  total c <= len (select d (tag_with "img" [Has "src"]))
  /\ len (select d (tag_with "img" [Has "src"])) <= totalImages (performance_of this d w)
  /\ total c * 100000 <= estimatedExternalResources (weight_of (html this) d)
  /\ 0 <= n_lazyLoaded c <= total c
  /\ (forall i, i ∈ lazyLoaded (images_of d) ->
        i ∈ withAlt (images_of d) \/ i ∈ withoutAlt (images_of d)).
Proof.
  intros c. subst c. unfold images_of. rewrite fold_image_callback.
  fold (recorded_images d). unfold counted, empty_images.
  cbn [withAlt withoutAlt lazyLoaded counts total n_lazyLoaded app]. rewrite !Z.add_0_l.
  assert (H1 : len (recorded_images d) <= len (select d (tag_with "img" [Has "src"]))).
  { unfold recorded_images. rewrite len_omap_filter, select_tag_with.
    apply len_filter_impl. intros n Hn. apply bool_decide_eq_true_1 in Hn as [i Hi].
    unfold image_record in Hi. cbn [forallb test_attr]. rewrite andb_true_r.
    destruct (attr "src" n); [reflexivity|discriminate]. }
  split; [exact H1|]. split; [|split; [|split]].
  - cbn [performance_of totalImages]. rewrite select_tag_with. apply len_filter_le.
  - unfold weight_of. cbv zeta. cbn [estimatedExternalResources]. rewrite !add_each_sum.
    pose proof (len_nonneg (select d (tag_with "link" [Is "rel" "stylesheet"]))).
    pose proof (len_nonneg (select d (tag_with "script" [Has "src"]))). lia.
  - split; [apply len_nonneg|apply len_filter_le].
  - intros i Hi. apply list_elem_of_In, filter_In in Hi as [Hi _].
    rewrite !list_elem_of_In, !filter_In. destruct (hasAlt i); cbn [negb]; tauto.
Qed.

(** X13.  Every [script] element is counted once by the performance
    section: as external when it has a [src] attribute, as inline when it
    has none. *)
Theorem scripts_partition (this : scraper) (d : document) (w : page_weight) :
  totalScripts (performance_of this d w) + totalInlineScripts (performance_of this d w)
  = len (select d (tag "script")).
Proof.
  cbn [performance_of totalScripts totalInlineScripts].
  rewrite select_tag_with, select_tag_without.
  rewrite <- (len_filter_split (fun n => test_attr n (Has "src")) (select d (tag "script"))).
  rewrite (List.filter_ext (fun n => forallb (test_attr n) [Has "src"])
                           (fun n => test_attr n (Has "src")))
    by (intros n; cbn [forallb]; apply andb_true_r).
  rewrite (List.filter_ext (fun n => negb (existsb (test_attr n) [Has "src"]))
                           (fun n => negb (test_attr n (Has "src"))))
    by (intros n; cbn [existsb]; now rewrite orb_false_r).
  reflexivity.
Qed.

Lemma len_filter_orb {A : Type} (P Q : A -> bool) (l : list A) :
  (forall x, P x = true -> Q x = false) ->
  len (List.filter (fun x => P x || Q x) l)
  = len (List.filter P l) + len (List.filter Q l).
Proof.
  intros Hdisj. induction l as [|x l IH]; [reflexivity|]. cbn [List.filter].
  destruct (P x) eqn:EP; cbn [orb].
  - rewrite (Hdisj x EP), !len_cons. lia.
  - destruct (Q x); rewrite ?len_cons; lia.
Qed.

Lemma matches_tag_app (t : string) (s : selector) (n : node) :
  matches (tag t ++ s) n = matches (tag t) n || matches s n.
Proof. unfold matches. now rewrite existsb_app. Qed.

Lemma matches_tag_name (t : string) (n : node) :
  matches (tag t) n = true -> exists as_ cs, n = Element t as_ cs.
Proof.
  unfold matches, tag. cbn [existsb]. rewrite orb_false_r. unfold matches_compound.
  cbn [sel_tag sel_attrs sel_not forallb existsb negb]. rewrite !andb_true_r.
  destruct n as [s|name as_ cs]; cbn [tag_is]; [discriminate|].
  intros H. apply String.eqb_eq in H. subst. now exists as_, cs.
Qed.

Lemma len_fold_heading_callback (l : list node) (hs : list heading) :
  len (fold_left heading_callback l hs) <= len hs + len l.
Proof.
  revert hs. induction l as [|elem l IH]; intros hs; cbn [fold_left].
  - rewrite len_nil. lia.
  - specialize (IH (heading_callback hs elem)). rewrite len_cons.
    assert (len (heading_callback hs elem) <= len hs + 1); [|lia].
    unfold heading_callback. destruct (Js.truthy _); [rewrite len_app, len_cons, len_nil|]; lia.
Qed.

Lemma fold_heading_callback_elem (l : list node) (hs : list heading) (h : heading) :
  h ∈ fold_left heading_callback l hs ->
  h ∈ hs
  \/ exists elem, elem ∈ l /\ h_text h = Js.trim (Dom.text elem) /\ h_text h <> ""
                  /\ h_id h = Js.or_null (attr "id" elem)
                  /\ h_length h = Js.utf16_length (h_text h).
Proof.
  revert hs. induction l as [|elem l IH]; intros hs; cbn [fold_left]; [tauto|].
  intros Hh. apply IH in Hh as [Hh|(e & He & Hrest)].
  - unfold heading_callback in Hh.
    destruct (Js.trim (Dom.text elem)) as [|a s] eqn:Ht; cbn [Js.truthy] in Hh;
      [now left|].
    apply elem_of_app in Hh as [Hh|Hh]; [now left|]. apply list_elem_of_singleton in Hh.
    right. exists elem. subst h. cbn [h_text h_id h_length]. rewrite Ht.
    repeat split; [apply list_elem_of_here|discriminate].
  - right. exists e. split; [now apply list_elem_of_further|exact Hrest].
Qed.

(** X14.  Headings across sections: each count of the headings section is
    the length of its list; a recorded heading is the trimmed, non-empty
    text of an element of its level, with the UTF-16 length of that text;
    and the six counts add up to at most the [totalHeadings] of the
    performance section, which counts the heading elements themselves. *)
Theorem heading_counts_across_sections (this : scraper) (d : document) (w : page_weight) :
  let h := headings_of d in
  heading_count_list (h_counts h) = map len (heading_lists h)
  /\ Forall2 (fun t hs =>
                forall x, x ∈ hs ->
                  exists elem, elem ∈ select d (tag t)
                               /\ h_text x = Js.trim (Dom.text elem) /\ h_text x <> ""
                               /\ h_id x = Js.or_null (attr "id" elem)
                               /\ h_length x = Js.utf16_length (h_text x))
             ["h1"; "h2"; "h3"; "h4"; "h5"; "h6"] (heading_lists h)
  /\ sum_Z (heading_count_list (h_counts h)) <= totalHeadings (performance_of this d w).
Proof.
  intros h. subst h. split; [reflexivity|]. split.
  - unfold heading_lists, headings_of. cbn [h1 h2 h3 h4 h5 h6].
    repeat first [apply List.Forall2_nil | apply List.Forall2_cons];
      intros x Hx; unfold collect_headings in Hx;
      apply fold_heading_callback_elem in Hx as [Hx|Hx];
      solve [now apply elem_of_nil in Hx | exact Hx].
  - cbn [performance_of totalHeadings headings_of h_counts heading_count_list
         n_h1 n_h2 n_h3 n_h4 n_h5 n_h6 sum_Z fold_right].
    assert (Hc : forall t, len (collect_headings d t) <= len (select d (tag t))).
    { intros t. unfold collect_headings.
      pose proof (len_fold_heading_callback (select d (tag t)) []) as H.
      rewrite len_nil in H. lia. }
    assert (Hdisj : forall t s n,
              (forall as_ cs, matches s (Element t as_ cs) = false) ->
              matches (tag t) n = true -> matches s n = false).
    { intros t s n Hs Hn. apply matches_tag_name in Hn as (as_ & cs & ->). apply Hs. }
    unfold all_headings, select.
    rewrite (List.filter_ext _ _ (matches_tag_app "h1" _)), len_filter_orb
      by (intros n; apply Hdisj; intros; reflexivity).
    rewrite (List.filter_ext _ _ (matches_tag_app "h2" _)), len_filter_orb
      by (intros n; apply Hdisj; intros; reflexivity).
    rewrite (List.filter_ext _ _ (matches_tag_app "h3" _)), len_filter_orb
      by (intros n; apply Hdisj; intros; reflexivity).
    rewrite (List.filter_ext _ _ (matches_tag_app "h4" _)), len_filter_orb
      by (intros n; apply Hdisj; intros; reflexivity).
    rewrite (List.filter_ext _ _ (matches_tag_app "h5" _)), len_filter_orb
      by (intros n; apply Hdisj; intros; reflexivity).
    pose proof (Hc "h1"). pose proof (Hc "h2"). pose proof (Hc "h3").
    pose proof (Hc "h4"). pose proof (Hc "h5"). pose proof (Hc "h6").
    unfold select in *. lia.
Qed.

(* ===================================================================== *)
(** * Basic and technical metadata *)
(* ===================================================================== *)

Lemma or_null_first_attr (l : list node) (a : string) :
  Js.or_null (first_attr l a) <> None -> nonempty l = true.
Proof. destruct l; [intros H; now contradiction H|reflexivity]. Qed.

Lemma or_null_Some (o : option string) (s : string) :
  Js.or_null o = Some s -> o = Some s /\ s <> "".
Proof.
  unfold Js.or_null. destruct o as [[|a r]|]; cbn [Js.truthy]; try discriminate.
  intros H. inversion H. split; [reflexivity|discriminate].
Qed.

(** X15.  The basic and the technical section agree: whenever the basic
    section has a value for [viewport], [canonical], [robots] or
    [charset], the technical section's flag for it is set, and the same
    holds for [sitemapUrl] and [rssUrl] against [hasSitemap] and [hasRSS].
    (Not the other way round: an element with an empty value sets the flag
    and leaves the value [null].)  Every value reported is non-empty. *)
Theorem basic_technical_agree (this : scraper) (d : document) :
  let b := basic_of d in
  let t := technical_of this d in
  (viewport b <> None -> hasViewport t = true)
  /\ (canonical b <> None -> hasCanonical t = true)
  /\ (robots b <> None -> hasRobots t = true)
  /\ (charset b <> None -> hasCharset t = true)
  /\ (sitemapUrl t <> None -> hasSitemap t = true)
  /\ (rssUrl t <> None -> hasRSS t = true)
  /\ Forall (fun o => o <> Some "")
       [title b; metaDescription b; canonical b; robots b; viewport b; charset b;
        language b; sitemapUrl t; rssUrl t; doctype t].
Proof.
  intros b t. subst b t.
  cbn [basic_of technical_of viewport canonical robots charset hasViewport hasCanonical
       hasRobots hasCharset sitemapUrl rssUrl hasSitemap hasRSS title metaDescription
       language doctype].
  split; [apply or_null_first_attr|]. split; [apply or_null_first_attr|].
  split; [apply or_null_first_attr|]. split.
  { destruct (Js.truthy (first_attr (select d (tag_with "meta" [Has "charset"])) "charset"))
      eqn:E.
    - intros _. destruct (select d (tag_with "meta" [Has "charset"])); [discriminate|].
      reflexivity.
    - intros H. apply or_null_first_attr in H. rewrite H. apply orb_true_r. }
  split; [apply or_null_first_attr|]. split; [apply or_null_first_attr|].
  assert (Hnull : forall o, Js.or_null o <> Some "").
  { intros o H. apply or_null_Some in H as [_ H]. now apply H. }
  repeat apply Forall_cons_2; try apply Forall_nil_2; try apply Hnull.
  destruct (Js.truthy (first_attr (select d (tag_with "meta" [Has "charset"])) "charset"))
    eqn:E; [|apply Hnull].
  intros H. rewrite H in E. discriminate.
Qed.

(* ===================================================================== *)
(** * The doctype *)
(* ===================================================================== *)

Lemma take_drop (n : nat) (s : string) : take n s +:+ Js.drop n s = s.
Proof.
  revert s. induction n as [|n IH]; intros s; [now destruct s|].
  destruct s as [|a s]; [reflexivity|]. cbn [take Js.drop].
  change (String a (take n s) +:+ Js.drop n s) with (String a (take n s +:+ Js.drop n s)).
  now rewrite IH.
Qed.

Lemma append_assoc (s1 s2 s3 : string) : (s1 +:+ s2) +:+ s3 = s1 +:+ s2 +:+ s3.
Proof.
  induction s1 as [|a s1 IH]; [reflexivity|].
  change (String a ((s1 +:+ s2) +:+ s3) = String a (s1 +:+ s2 +:+ s3)). now rewrite IH.
Qed.

Lemma startsWith_ci_take (s p : string) :
  startsWith_ci s p = true ->
  Js.toLowerCase (take (String.length p) s) = Js.toLowerCase p.
Proof.
  revert s. induction p as [|b p IH]; intros s; [now destruct s|].
  destruct s as [|a s]; cbn [startsWith_ci]; [discriminate|].
  destruct (Ascii.eqb_spec (Js.lower a) (Js.lower b)) as [Hab|]; [|discriminate].
  intros H. cbn [String.length take Js.toLowerCase]. now rewrite Hab, (IH s H).
Qed.

Lemma upto_gt_spec (s r : string) :
  upto_gt s = Some r ->
  exists body post, r = body +:+ ">" /\ s = r +:+ post /\ Js.includes body ">" = false.
Proof.
  revert r. induction s as [|a s IH]; intros r; cbn [upto_gt]; [discriminate|].
  destruct (Ascii.eqb_spec a ">") as [->|Hne].
  - intros H. inversion H. exists "", s. repeat split.
  - destruct (upto_gt s) as [r'|]; [|discriminate]. cbn [option_map].
    intros H. inversion H. destruct (IH r' eq_refl) as (body & post & -> & Hs & Hb).
    exists (String a body), post. split; [reflexivity|]. split.
    + rewrite Hs at 1. reflexivity.
    + rewrite includes_unfold. cbn [Js.startsWith].
      apply Ascii.eqb_neq in Hne. rewrite Hne. exact Hb.
Qed.

Lemma match_doctype_spec (s m : string) :
  match_doctype s = Some m ->
  exists pre kw body post,
    s = pre +:+ m +:+ post /\ m = kw +:+ body +:+ ">"
    /\ Js.toLowerCase kw = "<!doctype" /\ Js.includes body ">" = false.
Proof.
  induction s as [|a s IH]; cbn [match_doctype].
  - unfold doctype_at. cbn [startsWith_ci]. discriminate.
  - destruct (doctype_at (String a s)) as [m'|] eqn:Hat.
    + intros H. inversion H. subst m'. clear H. unfold doctype_at in Hat.
      destruct (startsWith_ci (String a s) "<!DOCTYPE") eqn:Hci; [|discriminate].
      apply startsWith_ci_take in Hci. cbn [String.length] in Hci.
      pose proof (take_drop 9 (String a s)) as Htd.
      remember (take 9 (String a s)) as kw eqn:Hkw.
      remember (Js.drop 9 (String a s)) as rest eqn:Hrest.
      destruct (upto_gt rest) as [r|] eqn:Hr; [|discriminate].
      cbn [option_map] in Hat. injection Hat as <-.
      apply upto_gt_spec in Hr as (body & post & -> & Hs & Hb).
      exists "", kw, body, post.
      split; [|split; [reflexivity|split; [exact Hci|exact Hb]]].
      change ("" +:+ (kw +:+ body +:+ ">") +:+ post) with ((kw +:+ body +:+ ">") +:+ post).
      now rewrite append_assoc, <- Hs.
    + intros H. destruct (IH H) as (pre & kw & body & post & -> & Hm & Hkw & Hb).
      exists (String a pre), kw, body, post. now repeat split.
Qed.

(** X16.  The doctype the technical section reports is a piece of the
    markup: the keyword [<!DOCTYPE] in any letter case, followed by
    characters other than [>], closed by the first [>].  When the markup
    has no such piece the doctype is [null] and the version [Unknown]. *)
Theorem doctype_of_markup (this : scraper) (d : document) :
  match doctype (technical_of this d) with
  | Some m =>
      exists pre kw body post,
        html this = pre +:+ m +:+ post /\ m = kw +:+ body +:+ ">"
        /\ Js.toLowerCase kw = "<!doctype" /\ ~ Contains body ">"
  | None => htmlVersion (technical_of this d) = "Unknown"
  end.
Proof.
  cbn [technical_of doctype htmlVersion]. unfold getHtmlVersion.
  destruct (match_doctype (html this)) as [m|] eqn:Hm.
  - destruct (match_doctype_spec _ _ Hm) as (pre & kw & body & post & Hs & -> & Hkw & Hb).
    destruct kw as [|k kw]; [discriminate|].
    change (Js.or_null (Some (String k kw +:+ body +:+ ">")))
      with (Some (String k kw +:+ body +:+ ">")).
    cbv beta iota. exists pre, (String k kw), body, post.
    repeat split; try assumption. now apply includes_false.
  - reflexivity.
Qed.

(* ===================================================================== *)
(** * Complete reports *)
(* ===================================================================== *)

Section CompleteReports.

Variable JSON_parse : string -> option json.
Variable URL_hostname : string -> option string.


End CompleteReports.

(* ===================================================================== *)
(** * The properties with a premise, on sample pages *)
(* ===================================================================== *)

Lemma analyze_before_fetch_witness :
  let this := new_SEOScraper "https://a.example/" "2024-01-01T00:00:00.000Z" in
  dollar this = None
  /\ analyze Sample.parse Sample.hostname this = metadata this
  /\ analyze_log Sample.parse Sample.hostname this
     = map (fun s => Warned (step_name s) TypeError) (steps Sample.parse Sample.hostname).
Proof.
  intros this. split; [reflexivity|].
  apply (analyze_before_fetch Sample.parse Sample.hostname this). reflexivity.
Defined.


Lemma ogTags_flat_witness :
  let d := Sample.page [ Sample.meta "og:title" "A"; Sample.meta "og:type" "website";
                         Sample.meta "og:title" "B" ] [] in
  forallb is_flat (og_tags d) = true
  /\ exists o, ogTags_of d = inr o /\ o !! "title" = Some (OgString "B")
               /\ o !! "type" = Some (OgString "website").
Proof.
  intros d.
  assert (Hflat : forallb is_flat (og_tags d) = true) by reflexivity.
  destruct (ogTags_flat d Hflat) as (o & Ho & Hlook & _).
  split; [exact Hflat|]. exists o. split; [exact Ho|].
  split; rewrite Hlook; reflexivity.
Defined.

Lemma ogTags_nested_witness :
  let d := Sample.page [ Sample.meta "og:image:width" "400";
                         Sample.meta "og:image:height" "300" ] [] in
  forallb is_plain_nested (og_tags d) = true
  /\ exists o, ogTags_of d = inr o
               /\ o !! "image" = Some (OgObject {[ "width" := "400"; "height" := "300" ]}).
Proof.
  intros d.
  assert (Hn : forallb is_plain_nested (og_tags d) = true) by reflexivity.
  destruct (ogTags_nested d Hn) as (o & Ho & Hlook).
  split; [exact Hn|]. exists o. split; [exact Ho|].
  destruct (Hlook "image") as [-> _]. vm_compute. reflexivity.
Defined.
